(** * The B2 storage adapter of duplicacy (src/duplicacy_b2storage.go)

    The adapter translates the generic storage interface of the backup
    engine (list, delete, move, stat, upload, download) into calls on a
    versioned object client.  The client, the logger, the rate-limited copy
    and the Go runtime are the adapter's environment: each adapter method is
    embedded as a finite interaction program whose nodes are the calls the
    method issues, and whose continuation receives what the environment
    answers.  Running a program against an arbitrary environment gives the
    method's result together with the sequence of calls it issued. *)

From Stdlib Require Import ZArith String Ascii List Lia Bool.
From stdpp Require Import gmap strings.
Import ListNotations.

Local Open Scope string_scope.
Local Open Scope list_scope.
Local Open Scope Z_scope.
Local Open Scope nat_scope.

(** ** Go strings and integers *)

Module Go.

(** [len(s)] *)
Definition len (s : string) : nat := String.length s.

(** [s[n:]]; out of range when [n > len(s)] (a run-time panic in Go). *)
Definition slice_from (s : string) (n : nat) : option string :=
  if n <=? len s then Some (substring n (len s - n) s) else None.

(** [s[:n]]; out of range when [n > len(s)]. *)
Definition slice_to (s : string) (n : nat) : option string :=
  if n <=? len s then Some (substring 0 n s) else None.

(** [s[len(s)-1]], the last byte of a non-empty string. *)
Definition last_byte (s : string) : option ascii :=
  String.get (len s - 1) s.

(** [strings.HasSuffix(s, suffix)]:
    [len(s) >= len(suffix) && s[len(s)-len(suffix):] == suffix]. *)
Definition HasSuffix (s suffix : string) : bool :=
  (len suffix <=? len s)
  && (substring (len s - len suffix) (len suffix) s =? suffix)%string.

(** [strings.Split(s, sep)] for a separator of one byte: the pieces of [s]
    between the occurrences of [sep]; the result is never empty. *)
Fixpoint Split (s : string) (sep : ascii) : list string :=
  match s with
  | EmptyString => [EmptyString]
  | String c s' =>
      if Ascii.eqb c sep then EmptyString :: Split s' sep
      else match Split s' sep with
           | piece :: pieces => String c piece :: pieces
           | [] => [String c EmptyString]
           end
  end.

(** A Go [int] is 64 bits wide on the platforms the program is built for;
    results wrap around. *)
Definition int_wrap (z : Z) : Z :=
  ((z + 2 ^ 63) mod 2 ^ 64 - 2 ^ 63)%Z.

Definition in_int (z : Z) : Prop := (- 2 ^ 63 <= z < 2 ^ 63)%Z.

(** [x / y] on [int]: truncated towards zero; dividing by zero panics. *)
Definition int_quo (x y : Z) : option Z :=
  if (y =? 0)%Z then None else Some (int_wrap (Z.quot x y)).

End Go.

(** ** Data model *)

(** One version of a stored object, as the client reports it. *)
Record B2Entry : Type := mkEntry {
  FileID : string;
  FileName : string;
  Action : string;
  Size : Z
}.

(** A Go [error]; [None] is [nil]. *)
Definition error : Type := string.

(** Handles of the objects the adapter only passes along. *)
Inductive ReadCloser : Type := stream (id : nat).
Inductive Chunk : Type := chunk_buffer (id : nat).

Record B2Client : Type := mkClient {
  Threads : Z
}.

Record B2Storage : Type := mkStorage {
  DownloadRateLimit : Z;
  client : B2Client
}.

(** ** Calls into the environment *)

(** The calls an adapter method can issue, indexed by the type of the
    answer: the methods of the client, the dynamic upload limit of the
    storage base, the rate-limited copy, closing a stream, and the fatal
    log. *)
Inductive Event : Type -> Type :=
| client_ListFileNames (threadIndex : Z) (startFileName : string)
    (singleFile includeVersions : bool) : Event (list B2Entry * option error)
| client_DeleteFile (threadIndex : Z) (fileName fileID : string) :
    Event (option error)
| client_HideFile (threadIndex : Z) (fileName : string) :
    Event (string * option error)
| client_UploadFile (threadIndex : Z) (filePath : string)
    (content : list Byte.byte) (rateLimit : Z) : Event (option error)
| client_DownloadFile (threadIndex : Z) (filePath : string) :
    Event (ReadCloser * Z * option error)
| storage_UploadRateLimit : Event Z
| RateLimitedCopy (chunk : Chunk) (reader : ReadCloser) (rate : Z) :
    Event (Z * option error)
| readCloser_Close (reader : ReadCloser) : Event unit
| LOG_FATAL (logID format : string) (args : list string) : Event unit.

(** A method body: it returns, panics, or issues a call and goes on with
    the answer. *)
Inductive prog (R : Type) : Type :=
| Ret (r : R)
| Panic (msg : string)
| Vis {X : Type} (e : Event X) (k : X -> prog R).

Arguments Ret {R} r.
Arguments Panic {R} msg.
Arguments Vis {R X} e k.

Fixpoint bind {A B : Type} (p : prog A) (f : A -> prog B) : prog B :=
  match p with
  | Ret a => f a
  | Panic msg => Panic msg
  | Vis e k => Vis e (fun x => bind (k x) f)
  end.

Definition call {X : Type} (e : Event X) : prog X := Vis e Ret.

Notation "x <- p ;; q" := (bind p (fun x => q))
  (at level 20, p at level 99, q at level 200, only parsing).
Notation "' pat <- p ;; q" := (bind p (fun x => match x with pat => q end))
  (at level 20, pat pattern, p at level 99, q at level 200, only parsing).

(** ** Running a method against an environment *)

(** An environment with state [W] answers every call and moves to a new
    state. *)
Definition handler (W : Type) : Type := forall X : Type, Event X -> W -> X * W.

Inductive outcome (R : Type) : Type :=
| Returned (r : R)
| Panicked (msg : string).

Arguments Returned {R} r.
Arguments Panicked {R} msg.

(** A call without its answer type, for the log of issued calls. *)
Inductive issued : Type :=
| Called {X : Type} (e : Event X).

Fixpoint run {W R : Type} (h : handler W) (p : prog R) (w : W)
  : outcome R * W * list issued :=
  match p with
  | Ret r => (Returned r, w, [])
  | Panic msg => (Panicked msg, w, [])
  | Vis e k =>
      let '(x, w1) := h _ e w in
      let '(o, w2, log) := run h (k x) w1 in
      (o, w2, Called e :: log)
  end.

Definition result_of {W R : Type} (r : outcome R * W * list issued) : outcome R :=
  fst (fst r).

Definition calls_of {W R : Type} (r : outcome R * W * list issued) : list issued :=
  snd r.

(** ** The adapter *)

Module B2Storage.

Definition fsl : string := ".fsl".

(** The loop at the head of [ListFiles]:
    [for len(dir) > 0 && dir[len(dir)-1] == '/' { dir = dir[:len(dir)-1] }].
    Every turn shortens [dir], so [len(dir)] turns are enough. *)
Fixpoint trim_slashes (turns : nat) (dir : string) : string :=
  match turns with
  | O => dir
  | S turns' =>
      if (0 <? Go.len dir)
         && match Go.last_byte dir with
            | Some c => Ascii.eqb c "/"
            | None => false
            end
      then trim_slashes turns' (substring 0 (Go.len dir - 1) dir)
      else dir
  end.

Definition normalize (dir : string) : string :=
  trim_slashes (Go.len dir) dir.

(** [entry.FileName[length:]] *)
Definition strip (length : nat) (entry : B2Entry) : prog string :=
  match Go.slice_from (FileName entry) length with
  | Some name => Ret name
  | None => Panic "slice bounds out of range"
  end.

(** The first loop of the [snapshots] branch: fills the map [subDirs]. *)
Fixpoint snapshots_loop (length : nat) (subDirs : gmap string bool)
    (entries : list B2Entry) : prog (gmap string bool) :=
  match entries with
  | [] => Ret subDirs
  | entry :: rest =>
      name <- strip length entry ;;
      match Go.Split name "/" with
      | subDir :: _ =>
          snapshots_loop length (<[subDir +:+ "/" := true]> subDirs) rest
      | [] => Panic "index out of range"
      end
  end.

(** The loop of the [chunks] branch. *)
Fixpoint chunks_loop (length : nat) (lastFile : string)
    (files : list string) (sizes : list Z) (entries : list B2Entry)
  : prog (list string * list Z) :=
  match entries with
  | [] => Ret (files, sizes)
  | entry :: rest =>
      if (FileName entry =? lastFile)%string then
        chunks_loop length lastFile files sizes rest
      else
        name <- strip length entry ;;
        let files :=
          if (Action entry =? "hide")%string
          then files ++ [name +:+ fsl]
          else files ++ [name] in
        chunks_loop length (FileName entry) files (sizes ++ [Size entry]) rest
  end.

(** The loop of the last branch. *)
Fixpoint plain_loop (length : nat) (files : list string)
    (entries : list B2Entry) : prog (list string) :=
  match entries with
  | [] => Ret files
  | entry :: rest =>
      name <- strip length entry ;;
      plain_loop length (files ++ [name]) rest
  end.

Section Listing.

(** The order in which [range] visits the keys of a map is chosen by the
    Go runtime; [range_order] is that choice, applied to the keys. *)
Variable range_order : list string -> list string.

Definition ListFiles (threadIndex : Z) (dir : string)
  : prog (list string * list Z * option error) :=
  let dir := normalize dir in
  let length := Go.len dir + 1 in
  let includeVersions := (dir =? "chunks")%string in
  '(entries, err) <-
    call (client_ListFileNames threadIndex dir false includeVersions) ;;
  match err with
  | Some e => Ret ([], [], Some e)
  | None =>
      if (dir =? "snapshots")%string then
        subDirs <- snapshots_loop length ∅ entries ;;
        Ret (range_order (map_to_list subDirs).*1, [], None)
      else if (dir =? "chunks")%string then
        '(files, sizes) <- chunks_loop length "" [] [] entries ;;
        Ret (files, sizes, None)
      else
        files <- plain_loop length [] entries ;;
        Ret (files, [], None)
  end.

End Listing.

(** The loop of the fossil branch of [DeleteFile]. *)
Fixpoint delete_loop (threadIndex : Z) (filePath : string)
    (toBeDeleted : bool) (entries : list B2Entry) : prog (option error) :=
  match entries with
  | [] => Ret None
  | entry :: rest =>
      if negb (FileName entry =? filePath)%string
         || (negb toBeDeleted && negb (Action entry =? "hide")%string)
      then delete_loop threadIndex filePath toBeDeleted rest
      else
        err <- call (client_DeleteFile threadIndex filePath (FileID entry)) ;;
        match err with
        | Some e => Ret (Some e)
        | None => delete_loop threadIndex filePath true rest
        end
  end.

Definition DeleteFile (threadIndex : Z) (filePath : string)
  : prog (option error) :=
  if Go.HasSuffix filePath fsl then
    match Go.slice_to filePath (Go.len filePath - Go.len fsl) with
    | None => Panic "slice bounds out of range"
    | Some filePath =>
        '(entries, err) <-
          call (client_ListFileNames threadIndex filePath true true) ;;
        match err with
        | Some e => Ret (Some e)
        | None => delete_loop threadIndex filePath false entries
        end
    end
  else
    '(entries, err) <-
      call (client_ListFileNames threadIndex filePath true false) ;;
    match err with
    | Some e => Ret (Some e)
    | None =>
        match entries with
        | [] => Ret None
        | newest :: _ =>
            call (client_DeleteFile threadIndex filePath (FileID newest))
        end
    end.

(** The path [MoveFile] settles on before it acts; empty when the pair is
    not supported. *)
Definition move_target (from to : string) : string :=
  if Go.HasSuffix from fsl then
    if negb (from =? to +:+ fsl)%string then "" else to
  else if Go.HasSuffix to fsl then
    if negb (to =? from +:+ fsl)%string then "" else from
  else "".

Definition MoveFile (threadIndex : Z) (from to : string)
  : prog (option error) :=
  let filePath := move_target from to in
  if (filePath =? "")%string then
    _ <- call (LOG_FATAL "STORAGE_MOVE"
                 "Moving file '%s' to '%s' is not supported" [from; to]) ;;
    Ret None
  else if (filePath =? from)%string then
    '(_, err) <- call (client_HideFile threadIndex from) ;;
    Ret err
  else
    '(entries, err) <-
      call (client_ListFileNames threadIndex filePath true true) ;;
    match err with
    | Some e => Ret (Some e)
    | None =>
        match entries with
        | [] => Ret None
        | newest :: _ =>
            if negb (FileName newest =? filePath)%string
               || negb (Action newest =? "hide")%string
            then Ret None
            else call (client_DeleteFile threadIndex filePath (FileID newest))
        end
    end.

Definition CreateDirectory (threadIndex : Z) (dir : string)
  : prog (option error) := Ret None.

(** Results are [(exist, isDir, size, err)]. *)
Definition GetFileInfo (threadIndex : Z) (filePath : string)
  : prog (bool * bool * Z * option error) :=
  let isFossil := Go.HasSuffix filePath fsl in
  match (if isFossil
         then Go.slice_to filePath (Go.len filePath - Go.len fsl)
         else Some filePath) with
  | None => Panic "slice bounds out of range"
  | Some filePath =>
      '(entries, err) <-
        call (client_ListFileNames threadIndex filePath true isFossil) ;;
      match err with
      | Some e => Ret (false, false, 0%Z, Some e)
      | None =>
          match entries with
          | [] => Ret (false, false, 0%Z, None)
          | newest :: _ =>
              if negb (FileName newest =? filePath)%string then
                Ret (false, false, 0%Z, None)
              else if isFossil then
                if (Action newest =? "hide")%string
                then Ret (true, false, Size newest, None)
                else Ret (false, false, 0%Z, None)
              else Ret (true, false, Size newest, None)
          end
      end
  end.

(** [defer readCloser.Close()] runs when the method leaves, also when the
    division panics. *)
Definition DownloadFile (storage : B2Storage) (threadIndex : Z)
    (filePath : string) (chunk : Chunk) : prog (option error) :=
  '(readCloser, _, err) <- call (client_DownloadFile threadIndex filePath) ;;
  match err with
  | Some e => Ret (Some e)
  | None =>
      match Go.int_quo (DownloadRateLimit storage) (Threads (client storage)) with
      | None =>
          _ <- call (readCloser_Close readCloser) ;;
          Panic "integer divide by zero"
      | Some rate =>
          '(_, err) <- call (RateLimitedCopy chunk readCloser rate) ;;
          _ <- call (readCloser_Close readCloser) ;;
          Ret err
      end
  end.

Definition UploadFile (storage : B2Storage) (threadIndex : Z)
    (filePath : string) (content : list Byte.byte) : prog (option error) :=
  limit <- call storage_UploadRateLimit ;;
  match Go.int_quo limit (Threads (client storage)) with
  | None => Panic "integer divide by zero"
  | Some rate =>
      call (client_UploadFile threadIndex filePath content rate)
  end.

Definition IsCacheNeeded : bool := true.
Definition IsMoveFileImplemented : bool := true.
Definition IsStrongConsistent : bool := true.
Definition IsFastListing : bool := true.

End B2Storage.

(** ** What the claims speak of *)

Module Spec.

(** The hide marker of the exact name [p]. *)
Definition is_marker (p : string) (e : B2Entry) : bool :=
  (FileName e =? p)%string && (Action e =? "hide")%string.

(** A version of the exact name [p]. *)
Definition same_name (p : string) (e : B2Entry) : bool :=
  (FileName e =? p)%string.

(** The versions listed before the first hide marker of [p]. *)
Fixpoint before_marker (p : string) (entries : list B2Entry) : list B2Entry :=
  match entries with
  | [] => []
  | e :: rest => if is_marker p e then [] else e :: before_marker p rest
  end.

(** The fossil chain of [p] in a listing: the first hide marker of the
    exact name and every later version of that name. *)
Fixpoint fossil_chain (p : string) (entries : list B2Entry) : list B2Entry :=
  match entries with
  | [] => []
  | e :: rest =>
      if is_marker p e then e :: List.filter (same_name p) rest
      else fossil_chain p rest
  end.

(** The delete call on one version of [p]. *)
Definition deletion (t : Z) (p : string) (e : B2Entry) : issued :=
  Called (client_DeleteFile t p (FileID e)).

Definition is_client_call (c : issued) : bool :=
  match c with
  | Called (client_ListFileNames _ _ _ _)
  | Called (client_DeleteFile _ _ _)
  | Called (client_HideFile _ _)
  | Called (client_UploadFile _ _ _ _)
  | Called (client_DownloadFile _ _) => true
  | _ => false
  end.

(** The two flags of a listing request: [(singleFile, includeVersions)]. *)
Definition listing_flags (c : issued) : option (bool * bool) :=
  match c with
  | Called (client_ListFileNames _ _ singleFile includeVersions) =>
      Some (singleFile, includeVersions)
  | _ => None
  end.

(** The pairs [MoveFile] takes as hiding [from] *)
Definition hides (from to : string) : Prop :=
  to = from +:+ ".fsl" /\ from <> "" /\ Go.HasSuffix from ".fsl" = false.

(** The pairs [MoveFile] takes as removing the hide marker of [to]. *)
Definition unhides (from to : string) : Prop :=
  from = to +:+ ".fsl" /\ to <> "".

(** The call of the fatal log on an unsupported move. *)
Definition fatal_move (from to : string) : issued :=
  Called (LOG_FATAL "STORAGE_MOVE"
            "Moving file '%s' to '%s' is not supported" [from; to]).

(** What a stat of the fossil of [p] reports on a listing: it exists,
    with the size of the newest entry, exactly when that entry is the
    hide marker of the exact name. *)
Definition fossil_info (p : string) (entries : list B2Entry)
  : bool * bool * Z * option error :=
  match entries with
  | newest :: _ =>
      if is_marker p newest then (true, false, Size newest, None)
      else (false, false, 0%Z, None)
  | [] => (false, false, 0%Z, None)
  end.

(** What a stat of a path [p] that is no fossil reports on a listing. *)
Definition plain_info (p : string) (entries : list B2Entry)
  : bool * bool * Z * option error :=
  match entries with
  | newest :: _ =>
      if same_name p newest then (true, false, Size newest, None)
      else (false, false, 0%Z, None)
  | [] => (false, false, 0%Z, None)
  end.

Definition failed_info (e : error) : bool * bool * Z * option error :=
  (false, false, 0%Z, Some e).

(** The name of an entry without its first [length] bytes. *)
Definition stripped (length : nat) (e : B2Entry) : string :=
  substring length (Go.len (FileName e) - length) (FileName e).

(** The entry's name reaches past the prefix, so that it can be
    stripped. *)
Definition long_enough (length : nat) (e : B2Entry) : Prop :=
  length <= Go.len (FileName e).

(** The entries left when consecutive duplicates of a name are dropped:
    an entry stays unless the entry just before it has the same name. *)
Fixpoint retained (previous : option string) (entries : list B2Entry)
  : list B2Entry :=
  match entries with
  | [] => []
  | e :: rest =>
      match previous with
      | Some name =>
          if (FileName e =? name)%string then retained previous rest
          else e :: retained (Some (FileName e)) rest
      | None => e :: retained (Some (FileName e)) rest
      end
  end.

(** The logical name of a chunk entry: the fossil name for a hide marker,
    the bare name otherwise. *)
Definition chunk_name (length : nat) (e : B2Entry) : string :=
  if (Action e =? "hide")%string then stripped length e +:+ ".fsl"
  else stripped length e.

(** The part of a path before its first slash. *)
Fixpoint first_segment (s : string) : string :=
  match s with
  | EmptyString => EmptyString
  | String c s' =>
      if Ascii.eqb c "/" then EmptyString else String c (first_segment s')
  end.

(** The directory an entry below [snapshots] belongs to. *)
Definition subdir (length : nat) (e : B2Entry) : string :=
  first_segment (stripped length e) +:+ "/".

(** The runtime visits every key of a map once, in an order of its own. *)
Definition visits_each_key_once (range_order : list string -> list string)
  : Prop :=
  forall keys, range_order keys ≡ₚ keys.

End Spec.

(** ** What the loops maintain *)

Module Loops.

(** What the loop of the fossil branch has still to delete. *)
Definition pending (p : string) (toBeDeleted : bool) (entries : list B2Entry)
  : list B2Entry :=
  if toBeDeleted then List.filter (Spec.same_name p) entries
  else Spec.fossil_chain p entries.

(** The loops issue no call: they return or panic. *)
Definition settled {R : Type} (p : prog R) : Prop :=
  (exists r, p = Ret r) \/ (exists msg, p = Panic msg).

(** One turn of the first loop of the [snapshots] branch. *)
Definition note_subdir (length : nat) (subDirs : gmap string bool) (e : B2Entry)
  : gmap string bool :=
  <[Spec.subdir length e := true]> subDirs.

(** Where the chunk loop stands after it has seen [lastFile]. *)
Definition seen (lastFile : string) : option string :=
  if (lastFile =? "")%string then None else Some lastFile.

End Loops.

(** ** An environment for examples *)

(** A client that answers every listing with [listing], reports
    [uploadLimit] as the upload limit and lets every other call succeed. *)
Definition stub (listing : list B2Entry) (uploadLimit : Z) : handler unit :=
  fun X e w =>
    match e in Event X return X * unit with
    | client_ListFileNames _ _ _ _ => ((listing, None), w)
    | client_DeleteFile _ _ _ => (None, w)
    | client_HideFile _ _ => (("id-of-marker", None), w)
    | client_UploadFile _ _ _ _ => (None, w)
    | client_DownloadFile _ _ => ((stream 0, 0%Z, None), w)
    | storage_UploadRateLimit => (uploadLimit, w)
    | RateLimitedCopy _ _ _ => ((0%Z, None), w)
    | readCloser_Close _ => (tt, w)
    | LOG_FATAL _ _ _ => (tt, w)
    end.

(** A client whose every call fails with the error [e]. *)
Definition failing (e : error) : handler unit :=
  fun X ev w =>
    match ev in Event X return X * unit with
    | client_ListFileNames _ _ _ _ => (([], Some e), w)
    | client_DeleteFile _ _ _ => (Some e, w)
    | client_HideFile _ _ => (("", Some e), w)
    | client_UploadFile _ _ _ _ => (Some e, w)
    | client_DownloadFile _ _ => ((stream 0, 0%Z, Some e), w)
    | storage_UploadRateLimit => (0%Z, w)
    | RateLimitedCopy _ _ _ => ((0%Z, Some e), w)
    | readCloser_Close _ => (tt, w)
    | LOG_FATAL _ _ _ => (tt, w)
    end.

(** A listing of ["chunks/ab"], newest first: an upload made after the
    name was hidden, the hide marker, the upload it hides, and an older
    marker; a version of another name sits in between. *)
Definition sample_versions : list B2Entry :=
  [ mkEntry "v5" "chunks/ab" "upload" 10;
    mkEntry "v4" "chunks/ab" "hide" 0;
    mkEntry "v3" "chunks/ab" "upload" 10;
    mkEntry "v2" "chunks/abc" "hide" 0;
    mkEntry "v1" "chunks/ab" "hide" 0 ].

(** The keys below [snapshots] of the listing example. *)
Definition sample_snapshots : list B2Entry :=
  [ mkEntry "s1" "snapshots/1/a" "upload" 1;
    mkEntry "s2" "snapshots/1/b" "upload" 2;
    mkEntry "s3" "snapshots/2/c" "upload" 3 ].

(** A listing below [chunks]: a live chunk with an older version, and a
    fossil over the version it hides. *)
Definition sample_chunks : list B2Entry :=
  [ mkEntry "c4" "chunks/0a" "upload" 40;
    mkEntry "c3" "chunks/0a" "upload" 30;
    mkEntry "c2" "chunks/1b" "hide" 0;
    mkEntry "c1" "chunks/1b" "upload" 10 ].

(** A storage with a download limit of 1000 and three threads. *)
Definition sample_storage : B2Storage :=
  mkStorage 1000 (mkClient 3).

(** ** Creating the storage *)

(** [CreateB2Storage] talks to the client before any adapter method can: it
    builds the client, authorizes the account and looks the bucket up, then
    sets the nesting levels of the storage base.  These calls have their
    own signature. *)
Inductive SetupEvent : Type -> Type :=
| NewB2Client (accountID applicationKey downloadURL storageDir : string)
    (threads : Z) : SetupEvent B2Client
| client_AuthorizeAccount (threadIndex : Z) : SetupEvent (option error * bool)
| client_FindBucket (bucket : string) : SetupEvent (option error)
| storage_SetDefaultNestingLevels (readLevels : list Z) (writeLevel : Z) :
    SetupEvent unit.

Inductive setup (R : Type) : Type :=
| SetupRet (r : R)
| SetupVis {X : Type} (e : SetupEvent X) (k : X -> setup R).

Arguments SetupRet {R} r.
Arguments SetupVis {R X} e k.

Inductive setup_issued : Type :=
| SetupCalled {X : Type} (e : SetupEvent X).

Definition setup_handler (W : Type) : Type :=
  forall X : Type, SetupEvent X -> W -> X * W.

Fixpoint run_setup {W R : Type} (h : setup_handler W) (p : setup R) (w : W)
  : R * W * list setup_issued :=
  match p with
  | SetupRet r => (r, w, [])
  | SetupVis e k =>
      let '(x, w1) := h _ e w in
      let '(r, w2, log) := run_setup h (k x) w1 in
      (r, w2, SetupCalled e :: log)
  end.

(** The result is [(storage, err)]; [None] is the nil storage.  The storage
    is built with the client alone, so its download limit is the zero
    value; the assignment of [DerivedStorage], a self-reference kept by the
    storage base, has no counterpart in the record. *)
Definition CreateB2Storage (accountID applicationKey downloadURL bucket
    storageDir : string) (threads : Z)
  : setup (option B2Storage * option error) :=
  SetupVis (NewB2Client accountID applicationKey downloadURL storageDir threads)
    (fun client =>
  SetupVis (client_AuthorizeAccount 0)
    (fun '(err, _) =>
  match err with
  | Some e => SetupRet (None, Some e)
  | None =>
  SetupVis (client_FindBucket bucket)
    (fun err =>
  match err with
  | Some e => SetupRet (None, Some e)
  | None =>
      let storage := mkStorage 0 client in
      SetupVis (storage_SetDefaultNestingLevels [0%Z] 0)
        (fun _ => SetupRet (Some storage, None))
  end)
  end)).

(** ** Reading the log of calls *)

Module Log.

(** The name and version ID of a delete call. *)
Definition deleted (c : issued) : option (Z * string * string) :=
  match c with
  | Called (client_DeleteFile t name id) => Some (t, name, id)
  | _ => None
  end.

Definition is_close (c : issued) : bool :=
  match c with
  | Called (readCloser_Close _) => true
  | _ => false
  end.

Definition is_upload (c : issued) : bool :=
  match c with
  | Called (client_UploadFile _ _ _ _) => true
  | _ => false
  end.

(** The calls that change the store: deleting, hiding, uploading. *)
Definition is_mutation (c : issued) : bool :=
  match c with
  | Called (client_DeleteFile _ _ _)
  | Called (client_HideFile _ _)
  | Called (client_UploadFile _ _ _ _) => true
  | _ => false
  end.

(** A run of [k] slashes. *)
Fixpoint slashes (k : nat) : string :=
  match k with
  | O => EmptyString
  | S k' => String "/" (slashes k')
  end.

(** The entry's name is not empty and too short to be stripped. *)
Definition too_short (length : nat) (e : B2Entry) : Prop :=
  FileName e <> "" /\ Go.len (FileName e) < length.

End Log.

(** A client for the setup whose answers are given. *)
Definition setup_stub (authorized found : option error) : setup_handler unit :=
  fun X e w =>
    match e in SetupEvent X return X * unit with
    | NewB2Client _ _ _ _ threads => (mkClient threads, w)
    | client_AuthorizeAccount _ => ((authorized, true), w)
    | client_FindBucket _ => (found, w)
    | storage_SetDefaultNestingLevels _ _ => (tt, w)
    end.

(** A listing of a plain directory. *)
Definition sample_plain : list B2Entry :=
  [ mkEntry "p2" "conf/keys" "upload" 5;
    mkEntry "p1" "conf/config" "upload" 9 ].

(** A client that answers every listing with [listing] and refuses every
    delete and hide with the error [e]. *)
Definition refusing (listing : list B2Entry) (e : error) : handler unit :=
  fun X ev w =>
    match ev in Event X return X * unit with
    | client_ListFileNames _ _ _ _ => ((listing, None), w)
    | client_DeleteFile _ _ _ => (Some e, w)
    | client_HideFile _ _ => (("", Some e), w)
    | client_UploadFile _ _ _ _ => (None, w)
    | client_DownloadFile _ _ => ((stream 0, 0%Z, None), w)
    | storage_UploadRateLimit => (0%Z, w)
    | RateLimitedCopy _ _ _ => ((0%Z, None), w)
    | readCloser_Close _ => (tt, w)
    | LOG_FATAL _ _ _ => (tt, w)
    end.

(** * Properties *)

(** ** Strings *)

Section GoStrings.

Lemma len_append (a b : string) : Go.len (a +:+ b) = Go.len a + Go.len b.
Proof. unfold Go.len. induction a as [|c a IH]; simpl; [reflexivity | now rewrite IH]. Qed.

Lemma substring_whole (s : string) : substring 0 (Go.len s) s = s.
Proof. unfold Go.len. induction s as [|c s IH]; simpl; [reflexivity | now rewrite IH]. Qed.

Lemma substring_append_left (a b : string) :
  substring 0 (Go.len a) (a +:+ b) = a.
Proof.
  unfold Go.len. induction a as [|c a IH]; simpl.
  - now destruct b.
  - now rewrite IH.
Qed.

Lemma substring_append_right (a b : string) :
  substring (Go.len a) (Go.len b) (a +:+ b) = b.
Proof.
  induction a as [|c a IH]; simpl; [apply substring_whole | exact IH].
Qed.

Lemma substring_split (s : string) :
  forall n, n <= Go.len s ->
    s = substring 0 n s +:+ substring n (Go.len s - n) s.
Proof.
  unfold Go.len. induction s as [|c s IH]; intros [|n] Hn; simpl in *;
    try reflexivity; try lia.
  - change (String c s = String c (substring 0 (Go.len s) s)).
    now rewrite substring_whole.
  - change (String c s
            = String c (substring 0 n s +:+ substring n (String.length s - n) s)).
    f_equal. apply IH. lia.
Qed.

Lemma HasSuffix_append (a b : string) : Go.HasSuffix (a +:+ b) b = true.
Proof.
  unfold Go.HasSuffix. rewrite len_append.
  replace (Go.len a + Go.len b - Go.len b) with (Go.len a) by lia.
  rewrite substring_append_right, String.eqb_refl.
  rewrite andb_true_r. apply Nat.leb_le. lia.
Qed.

Lemma HasSuffix_inv (s suffix : string) :
  Go.HasSuffix s suffix = true ->
  s = substring 0 (Go.len s - Go.len suffix) s +:+ suffix.
Proof.
  unfold Go.HasSuffix. intros H. apply andb_true_iff in H as [Hlen Heq].
  apply Nat.leb_le in Hlen. apply String.eqb_eq in Heq.
  pose proof (substring_split s (Go.len s - Go.len suffix)) as Hs.
  replace (Go.len s - (Go.len s - Go.len suffix)) with (Go.len suffix) in Hs by lia.
  rewrite Heq in Hs. apply Hs. lia.
Qed.

(** [HasSuffix] holds exactly of the strings that end in the suffix. *)
Lemma HasSuffix_iff (s suffix : string) :
  Go.HasSuffix s suffix = true <-> exists q, s = q +:+ suffix.
Proof.
  split.
  - intros H. eexists. apply HasSuffix_inv, H.
  - intros [q ->]. apply HasSuffix_append.
Qed.

Lemma slice_to_append (a b : string) :
  Go.slice_to (a +:+ b) (Go.len (a +:+ b) - Go.len b) = Some a.
Proof.
  unfold Go.slice_to. rewrite len_append.
  replace (Go.len a + Go.len b - Go.len b) with (Go.len a) by lia.
  rewrite substring_append_left.
  destruct (Nat.leb_spec (Go.len a) (Go.len a + Go.len b)); [reflexivity | lia].
Qed.

Lemma append_neq_self (a b : string) : b <> "" -> a <> a +:+ b.
Proof.
  intros Hb Heq. apply (f_equal Go.len) in Heq. rewrite len_append in Heq.
  destruct b; [congruence | unfold Go.len in Heq; simpl in Heq; lia].
Qed.

End GoStrings.

(** ** Running programs *)

Section Running.

Context {W : Type} (h : handler W).

Lemma run_bind {A B : Type} (p : prog A) (f : A -> prog B) (w : W) :
  run h (bind p f) w =
  match run h p w with
  | (Returned a, w1, log1) =>
      let '(o, w2, log2) := run h (f a) w1 in (o, w2, log1 ++ log2)
  | (Panicked msg, w1, log1) => (Panicked msg, w1, log1)
  end.
Proof.
  revert w. induction p as [a | msg | X e k IH]; intros w; simpl.
  - now destruct (run h (f a) w) as [[o w2] log2].
  - reflexivity.
  - destruct (h X e w) as [x w1]. rewrite IH.
    destruct (run h (k x) w1) as [[[a | msg] w2] log1]; [|reflexivity].
    now destruct (run h (f a) w2) as [[o w3] log2].
Qed.

Lemma run_call {X : Type} (e : Event X) (w : W) :
  run h (call e) w = (Returned (fst (h X e w)), snd (h X e w), [Called e]).
Proof. simpl. now destruct (h X e w). Qed.

End Running.

(** ** Deleting *)

Section Delete.

Context {W : Type} (h : handler W).
Variable t : Z.

Lemma pending_step (p : string) (b : bool) (e : B2Entry) (rest : list B2Entry) :
  Loops.pending p b (e :: rest) =
  if negb (FileName e =? p)%string
     || (negb b && negb (Action e =? "hide")%string)
  then Loops.pending p b rest
  else e :: Loops.pending p true rest.
Proof.
  unfold Loops.pending, Spec.is_marker, Spec.same_name; simpl.
  unfold Spec.is_marker, Spec.same_name.
  destruct b; simpl.
  - rewrite orb_false_r.
    now destruct (FileName e =? p)%string.
  - destruct (FileName e =? p)%string, (Action e =? "hide")%string; reflexivity.
Qed.

(** The loop issues deletes along the pending chain, in order, and stops
    at the first one that fails. *)
Lemma delete_loop_calls (p : string) (entries : list B2Entry) :
  forall (b : bool) (w : W),
  exists n,
    calls_of (run h (B2Storage.delete_loop t p b entries) w)
    = map (Spec.deletion t p) (firstn n (Loops.pending p b entries)).
Proof.
  induction entries as [|e rest IH]; intros b w.
  - exists 0. reflexivity.
  - rewrite pending_step. simpl.
    destruct (negb (FileName e =? p)%string
              || negb b && negb (Action e =? "hide")%string).
    + apply IH.
    + simpl. destruct (h _ (client_DeleteFile t p (FileID e)) w) as [[err|] w1].
      * exists 1. reflexivity.
      * destruct (IH true w1) as [n Hn]. exists (S n).
        unfold calls_of in *. simpl.
        destruct (run h (B2Storage.delete_loop t p true rest) w1) as [[o w2] log].
        simpl in *. now rewrite Hn.
Qed.

(** When no delete fails the loop goes through the whole chain. *)
Lemma delete_loop_complete (p : string) (entries : list B2Entry) :
  (forall w id, fst (h _ (client_DeleteFile t p id) w) = None) ->
  forall (b : bool) (w : W),
    result_of (run h (B2Storage.delete_loop t p b entries) w) = Returned None
    /\ calls_of (run h (B2Storage.delete_loop t p b entries) w)
       = map (Spec.deletion t p) (Loops.pending p b entries).
Proof.
  intros Hok. induction entries as [|e rest IH]; intros b w.
  - destruct b; split; reflexivity.
  - rewrite pending_step. simpl.
    destruct (negb (FileName e =? p)%string
              || negb b && negb (Action e =? "hide")%string).
    + apply IH.
    + simpl. specialize (Hok w (FileID e)).
      destruct (h _ (client_DeleteFile t p (FileID e)) w) as [err w1].
      simpl in Hok. subst err.
      destruct (IH true w1) as [Hr Hc].
      unfold result_of, calls_of in *.
      destruct (run h (B2Storage.delete_loop t p true rest) w1) as [[o w2] log].
      simpl in *. split; [exact Hr | now rewrite Hc].
Qed.

(** The chain never reaches back before the first hide marker: a listing
    is its part before the marker followed by a part the chain is drawn
    from. *)
Lemma fossil_chain_after_marker (p : string) (entries : list B2Entry) :
  exists later,
    entries = Spec.before_marker p entries ++ later
    /\ Spec.fossil_chain p entries = List.filter (Spec.same_name p) later
    /\ Forall (fun e => Spec.is_marker p e = false) (Spec.before_marker p entries)
    /\ match later with
       | [] => True
       | m :: _ => Spec.is_marker p m = true
       end.
Proof.
  induction entries as [|e rest (later & Hsplit & Hchain & Hbefore & Hhead)]; simpl.
  - exists []. repeat split; constructor.
  - destruct (Spec.is_marker p e) eqn:E.
    + exists (e :: rest). repeat split; auto.
      simpl. unfold Spec.is_marker in E. apply andb_true_iff in E as [E _].
      unfold Spec.same_name at 2. now rewrite E.
    + exists later. repeat split; auto.
      simpl. now f_equal.
Qed.

End Delete.

Section DeleteFile.

Context {W : Type} (h : handler W).
Variable t : Z.

(** The fossil branch: one listing of all versions of the bare name, then
    the loop. *)
Lemma DeleteFile_fossil_run (p : string) (w : W) :
  run h (B2Storage.DeleteFile t (p +:+ B2Storage.fsl)) w =
  let '((entries, err), w1) := h _ (client_ListFileNames t p true true) w in
  match err with
  | Some e =>
      (Returned (Some e), w1, [Called (client_ListFileNames t p true true)])
  | None =>
      let '(o, w2, log) := run h (B2Storage.delete_loop t p false entries) w1 in
      (o, w2, Called (client_ListFileNames t p true true) :: log)
  end.
Proof.
  unfold B2Storage.DeleteFile.
  rewrite HasSuffix_append, slice_to_append. simpl.
  destruct (h _ (client_ListFileNames t p true true) w) as [[entries [e|]] w1];
    reflexivity.
Qed.

(** The other branch: one listing of the exact name, then at most one
    delete, of the entry that comes first. *)
Lemma DeleteFile_plain_run (p : string) (w : W) :
  Go.HasSuffix p B2Storage.fsl = false ->
  run h (B2Storage.DeleteFile t p) w =
  let '((entries, err), w1) := h _ (client_ListFileNames t p true false) w in
  match err, entries with
  | Some e, _ =>
      (Returned (Some e), w1, [Called (client_ListFileNames t p true false)])
  | None, [] =>
      (Returned None, w1, [Called (client_ListFileNames t p true false)])
  | None, newest :: _ =>
      let '(r, w2) := h _ (client_DeleteFile t p (FileID newest)) w1 in
      (Returned r, w2,
       [Called (client_ListFileNames t p true false);
        Called (client_DeleteFile t p (FileID newest))])
  end.
Proof.
  intros Hp. unfold B2Storage.DeleteFile. rewrite Hp. simpl.
  destruct (h _ (client_ListFileNames t p true false) w)
    as [[[|newest rest] [e|]] w1]; simpl; try reflexivity.
  now destruct (h _ (client_DeleteFile t p (FileID newest)) w1).
Qed.

End DeleteFile.

(** C1. Deleting a fossil path [p.fsl] lists all versions of the bare name
    [p] (single name, versions included) and then deletes along the fossil
    chain of the listing: the first hide marker of the exact name and every
    later version of that name, in order.  The deletes issued are always an
    initial part of the chain, and the whole chain when no delete fails, in
    which case the method returns nil.  The chain is drawn from the part of
    the listing that starts at the marker: nothing listed before it is
    deleted. *)
Theorem DeleteFile_fossil_chain {W : Type} (h : handler W) (t : Z)
    (p : string) (w w1 : W) (entries : list B2Entry) :
  h _ (client_ListFileNames t p true true) w = ((entries, None), w1) ->
  let r := run h (B2Storage.DeleteFile t (p +:+ ".fsl")) w in
  (exists n,
     calls_of r = Called (client_ListFileNames t p true true)
                  :: map (Spec.deletion t p) (firstn n (Spec.fossil_chain p entries)))
  /\ ((forall w' id, fst (h _ (client_DeleteFile t p id) w') = None) ->
      result_of r = Returned None
      /\ calls_of r = Called (client_ListFileNames t p true true)
                      :: map (Spec.deletion t p) (Spec.fossil_chain p entries))
  /\ (exists later,
        entries = Spec.before_marker p entries ++ later
        /\ Spec.fossil_chain p entries = List.filter (Spec.same_name p) later).
Proof.
  intros Hlist r. subst r.
  change ".fsl" with B2Storage.fsl.
  rewrite DeleteFile_fossil_run, Hlist.
  split; [|split];
    [| | destruct (fossil_chain_after_marker p entries) as (later & H1 & H2 & _);
         now exists later].
  - destruct (delete_loop_calls h t p entries false w1) as [n Hn].
    exists n. unfold calls_of in *.
    destruct (run h (B2Storage.delete_loop t p false entries) w1) as [[o w2] log].
    simpl in *. now rewrite Hn.
  - intros Hok.
    destruct (delete_loop_complete h t p entries Hok false w1) as [Hr Hc].
    unfold result_of, calls_of in *.
    destruct (run h (B2Storage.delete_loop t p false entries) w1) as [[o w2] log].
    simpl in *. split; [exact Hr | now rewrite Hc].
Qed.

Lemma DeleteFile_fossil_chain_witness :
  result_of (run (stub sample_versions 0) (B2Storage.DeleteFile 3 "chunks/ab.fsl") tt)
  = Returned None
  /\ calls_of (run (stub sample_versions 0) (B2Storage.DeleteFile 3 "chunks/ab.fsl") tt)
     = [ Called (client_ListFileNames 3 "chunks/ab" true true);
         Called (client_DeleteFile 3 "chunks/ab" "v4");
         Called (client_DeleteFile 3 "chunks/ab" "v3");
         Called (client_DeleteFile 3 "chunks/ab" "v1") ].
Proof.
  exact (proj1 (proj2 (DeleteFile_fossil_chain (stub sample_versions 0) 3
                         "chunks/ab" tt tt sample_versions eq_refl))
               (fun _ _ => eq_refl)).
Defined.

(** C2, as the code has it.  Deleting a path that does not end in [.fsl]
    lists the exact name without asking for versions (single name,
    [includeVersions = false]); when the listing fails its error is
    returned and nothing is deleted, when it is empty the method returns
    nil and nothing is deleted, and otherwise exactly one delete is issued,
    on the ID of the entry that comes first, and its result is returned. *)
Theorem DeleteFile_plain_newest {W : Type} (h : handler W) (t : Z)
    (p : string) (w w1 : W) (entries : list B2Entry) (err : option error) :
  Go.HasSuffix p ".fsl" = false ->
  h _ (client_ListFileNames t p true false) w = ((entries, err), w1) ->
  match err, entries with
  | Some e, _ =>
      run h (B2Storage.DeleteFile t p) w
      = (Returned (Some e), w1, [Called (client_ListFileNames t p true false)])
  | None, [] =>
      run h (B2Storage.DeleteFile t p) w
      = (Returned None, w1, [Called (client_ListFileNames t p true false)])
  | None, newest :: _ =>
      run h (B2Storage.DeleteFile t p) w
      = (Returned (fst (h _ (client_DeleteFile t p (FileID newest)) w1)),
         snd (h _ (client_DeleteFile t p (FileID newest)) w1),
         [Called (client_ListFileNames t p true false);
          Called (client_DeleteFile t p (FileID newest))])
  end.
Proof.
  intros Hp Hlist. rewrite (DeleteFile_plain_run h t p w Hp), Hlist.
  destruct err as [e|]; [reflexivity|].
  destruct entries as [|newest rest]; [reflexivity|].
  now destruct (h _ (client_DeleteFile t p (FileID newest)) w1).
Qed.

Lemma DeleteFile_plain_newest_witness :
  run (stub sample_versions 0) (B2Storage.DeleteFile 3 "chunks/ab") tt
  = (Returned None, tt,
     [Called (client_ListFileNames 3 "chunks/ab" true false);
      Called (client_DeleteFile 3 "chunks/ab" "v5")]).
Proof.
  exact (DeleteFile_plain_newest (stub sample_versions 0) 3 "chunks/ab" tt tt
           sample_versions None eq_refl eq_refl).
Defined.

(** C2, as stated, asks for a listing of the versions of the name, active
    or hidden.  On ["chunks/ab"] no such request is issued: the one listing
    asks for no versions. *)
Lemma DeleteFile_plain_lists_without_versions :
  Go.HasSuffix "chunks/ab" ".fsl" = false
  /\ ~ In (Called (client_ListFileNames 3 "chunks/ab" true true))
         (calls_of (run (stub sample_versions 0)
                        (B2Storage.DeleteFile 3 "chunks/ab") tt))
  /\ map Spec.listing_flags
       (calls_of (run (stub sample_versions 0)
                      (B2Storage.DeleteFile 3 "chunks/ab") tt))
     = [Some (true, false); None].
Proof.
  split; [reflexivity|]. split; [|reflexivity].
  simpl. intros [H | [H | []]];
    apply (f_equal Spec.listing_flags) in H; discriminate H.
Qed.

(** C10. On a path that does not end in [.fsl], [DeleteFile] never compares
    the name of the listed entry with the path: when the entry that comes
    first carries another name, the delete is still issued, on that entry's
    version ID, whereas [GetFileInfo] on the same answer reports that the
    path does not exist. *)
Theorem DeleteFile_plain_ignores_name {W : Type} (h : handler W) (t : Z)
    (p : string) (w w1 : W) (newest : B2Entry) (rest : list B2Entry) :
  Go.HasSuffix p ".fsl" = false ->
  FileName newest <> p ->
  h _ (client_ListFileNames t p true false) w = ((newest :: rest, None), w1) ->
  calls_of (run h (B2Storage.DeleteFile t p) w)
  = [Called (client_ListFileNames t p true false);
     Called (client_DeleteFile t p (FileID newest))]
  /\ result_of (run h (B2Storage.GetFileInfo t p) w)
     = Returned (false, false, 0%Z, None).
Proof.
  intros Hp Hname Hlist. split.
  - rewrite (DeleteFile_plain_run h t p w Hp), Hlist.
    now destruct (h _ (client_DeleteFile t p (FileID newest)) w1).
  - unfold B2Storage.GetFileInfo. change ".fsl" with B2Storage.fsl in Hp.
    rewrite Hp. simpl. rewrite Hlist. simpl.
    apply String.eqb_neq in Hname. now rewrite Hname.
Qed.

Lemma DeleteFile_plain_ignores_name_witness :
  calls_of (run (stub sample_versions 0) (B2Storage.DeleteFile 3 "chunks/zz") tt)
  = [Called (client_ListFileNames 3 "chunks/zz" true false);
     Called (client_DeleteFile 3 "chunks/zz" "v5")]
  /\ result_of (run (stub sample_versions 0) (B2Storage.GetFileInfo 3 "chunks/zz") tt)
     = Returned (false, false, 0%Z, None).
Proof.
  refine (DeleteFile_plain_ignores_name (stub sample_versions 0) 3 "chunks/zz"
            tt tt (mkEntry "v5" "chunks/ab" "upload" 10) _ eq_refl _ eq_refl).
  intros H. discriminate H.
Defined.

(** ** Moving *)

Section MoveFile.

Context {W : Type} (h : handler W).
Variable t : Z.

Lemma move_target_hide (from : string) :
  from <> "" -> Go.HasSuffix from B2Storage.fsl = false ->
  B2Storage.move_target from (from +:+ B2Storage.fsl) = from.
Proof.
  intros _ Hfrom. unfold B2Storage.move_target.
  now rewrite Hfrom, HasSuffix_append, String.eqb_refl.
Qed.

Lemma move_target_unhide (to : string) :
  B2Storage.move_target (to +:+ B2Storage.fsl) to = to.
Proof.
  unfold B2Storage.move_target.
  now rewrite HasSuffix_append, String.eqb_refl.
Qed.

(** Every pair that neither hides nor unhides has the empty target. *)
Lemma move_target_other (from to : string) :
  ~ Spec.hides from to -> ~ Spec.unhides from to ->
  B2Storage.move_target from to = "".
Proof.
  unfold Spec.hides, Spec.unhides, B2Storage.move_target.
  change ".fsl" with B2Storage.fsl.
  intros Hh Hu.
  destruct (Go.HasSuffix from B2Storage.fsl) eqn:Hfrom.
  - destruct (String.eqb_spec from (to +:+ B2Storage.fsl)) as [E|E];
      [simpl | reflexivity].
    destruct (String.eqb_spec to "") as [E0|E0]; [exact E0 | tauto].
  - destruct (Go.HasSuffix to B2Storage.fsl); [|reflexivity].
    destruct (String.eqb_spec to (from +:+ B2Storage.fsl)) as [E|E];
      [simpl | reflexivity].
    destruct (String.eqb_spec from "") as [E0|E0]; [exact E0 | tauto].
Qed.

Lemma MoveFile_fatal_run (from to : string) (w : W) :
  B2Storage.move_target from to = "" ->
  run h (B2Storage.MoveFile t from to) w
  = (Returned None,
     snd (h _ (LOG_FATAL "STORAGE_MOVE"
                 "Moving file '%s' to '%s' is not supported" [from; to]) w),
     [Spec.fatal_move from to]).
Proof.
  intros Htarget. unfold B2Storage.MoveFile. rewrite Htarget. simpl.
  now destruct (h _ _ w).
Qed.

Lemma MoveFile_hide_run (from : string) (w : W) :
  from <> "" -> Go.HasSuffix from B2Storage.fsl = false ->
  run h (B2Storage.MoveFile t from (from +:+ B2Storage.fsl)) w
  = (Returned (snd (fst (h _ (client_HideFile t from) w))),
     snd (h _ (client_HideFile t from) w),
     [Called (client_HideFile t from)]).
Proof.
  intros Hne Hfrom. unfold B2Storage.MoveFile.
  rewrite (move_target_hide from Hne Hfrom).
  apply String.eqb_neq in Hne. rewrite Hne, String.eqb_refl. simpl.
  now destruct (h _ (client_HideFile t from) w) as [[id err] w1].
Qed.

Lemma MoveFile_unhide_run (to : string) (w : W) :
  to <> "" ->
  run h (B2Storage.MoveFile t (to +:+ B2Storage.fsl) to) w =
  let '((entries, err), w1) := h _ (client_ListFileNames t to true true) w in
  match err, entries with
  | Some e, _ =>
      (Returned (Some e), w1, [Called (client_ListFileNames t to true true)])
  | None, [] =>
      (Returned None, w1, [Called (client_ListFileNames t to true true)])
  | None, newest :: _ =>
      if Spec.is_marker to newest then
        let '(r, w2) := h _ (client_DeleteFile t to (FileID newest)) w1 in
        (Returned r, w2,
         [Called (client_ListFileNames t to true true);
          Called (client_DeleteFile t to (FileID newest))])
      else
        (Returned None, w1, [Called (client_ListFileNames t to true true)])
  end.
Proof.
  intros Hne. unfold B2Storage.MoveFile. rewrite move_target_unhide.
  assert (Hself : (to =? to +:+ B2Storage.fsl)%string = false).
  { apply String.eqb_neq, append_neq_self. discriminate. }
  apply String.eqb_neq in Hne. rewrite Hne, Hself. simpl.
  destruct (h _ (client_ListFileNames t to true true) w)
    as [[[|newest rest] [e|]] w1]; simpl; try reflexivity.
  unfold Spec.is_marker.
  destruct (FileName newest =? to)%string, (Action newest =? "hide")%string;
    simpl; try reflexivity.
  now destruct (h _ (client_DeleteFile t to (FileID newest)) w1).
Qed.

End MoveFile.

(** C4, as the code has it.  [MoveFile] hides [from] (one hide call,
    nothing deleted, the client's error returned) when [to] is
    [from + ".fsl"] and [from] is non-empty and does not itself end in
    [.fsl]; it removes the hide marker of [to] (a lookup of [to] with
    versions, then at most one delete) when [from] is [to + ".fsl"] and [to]
    is non-empty; on every other pair it issues no client call, calls the
    fatal log and, should that return, returns nil. *)
Theorem MoveFile_supported_pairs {W : Type} (h : handler W) (t : Z)
    (from to : string) (w : W) :
  (Spec.hides from to ->
   run h (B2Storage.MoveFile t from to) w
   = (Returned (snd (fst (h _ (client_HideFile t from) w))),
      snd (h _ (client_HideFile t from) w),
      [Called (client_HideFile t from)]))
  /\ (Spec.unhides from to ->
      exists more,
        calls_of (run h (B2Storage.MoveFile t from to) w)
        = Called (client_ListFileNames t to true true) :: more
        /\ (more = [] \/ exists id, more = [Called (client_DeleteFile t to id)]))
  /\ (~ Spec.hides from to -> ~ Spec.unhides from to ->
      run h (B2Storage.MoveFile t from to) w
      = (Returned None,
         snd (h _ (LOG_FATAL "STORAGE_MOVE"
                     "Moving file '%s' to '%s' is not supported" [from; to]) w),
         [Spec.fatal_move from to])).
Proof.
  split; [|split].
  - intros (-> & Hne & Hfrom). now apply MoveFile_hide_run.
  - intros (-> & Hne). change ".fsl" with B2Storage.fsl.
    rewrite (MoveFile_unhide_run h t to w Hne).
    destruct (h _ (client_ListFileNames t to true true) w)
      as [[[|newest rest] [e|]] w1]; simpl; eauto.
    destruct (Spec.is_marker to newest); simpl; eauto.
    destruct (h _ (client_DeleteFile t to (FileID newest)) w1). simpl. eauto.
  - intros Hh Hu. apply MoveFile_fatal_run. now apply move_target_other.
Qed.

Lemma MoveFile_supported_pairs_witness :
  run (stub sample_versions 0) (B2Storage.MoveFile 3 "chunks/ab" "chunks/ab.fsl") tt
  = (Returned None, tt, [Called (client_HideFile 3 "chunks/ab")])
  /\ (exists more,
        calls_of (run (stub (tl sample_versions) 0)
                      (B2Storage.MoveFile 3 "chunks/ab.fsl" "chunks/ab") tt)
        = Called (client_ListFileNames 3 "chunks/ab" true true) :: more
        /\ (more = [] \/ exists id, more = [Called (client_DeleteFile 3 "chunks/ab" id)]))
  /\ run (stub sample_versions 0) (B2Storage.MoveFile 3 "chunks/ab" "chunks/cd") tt
     = (Returned None, tt, [Spec.fatal_move "chunks/ab" "chunks/cd"]).
Proof.
  split; [|split].
  - apply (proj1 (MoveFile_supported_pairs (stub sample_versions 0) 3
                    "chunks/ab" "chunks/ab.fsl" tt)).
    split; [reflexivity | split; [discriminate | reflexivity]].
  - apply (proj1 (proj2 (MoveFile_supported_pairs (stub (tl sample_versions) 0) 3
                           "chunks/ab.fsl" "chunks/ab" tt))).
    split; [reflexivity | discriminate].
  - apply (proj2 (proj2 (MoveFile_supported_pairs (stub sample_versions 0) 3
                           "chunks/ab" "chunks/cd" tt))).
    + intros [H _]. discriminate H.
    + intros [H _]. discriminate H.
Defined.

(** C4, as stated, has every pair with [to = from + ".fsl"] hidden.  When
    [from] is itself a fossil name the pair is taken for an unsupported
    move: the fatal log is called and no hide is issued. *)
Lemma MoveFile_hide_of_fossil_is_fatal :
  "chunks/ab.fsl.fsl" = "chunks/ab.fsl" +:+ ".fsl"
  /\ run (stub sample_versions 0)
         (B2Storage.MoveFile 3 "chunks/ab.fsl" "chunks/ab.fsl.fsl") tt
     = (Returned None, tt, [Spec.fatal_move "chunks/ab.fsl" "chunks/ab.fsl.fsl"])
  /\ ~ In (Called (client_HideFile 3 "chunks/ab.fsl"))
         (calls_of (run (stub sample_versions 0)
                        (B2Storage.MoveFile 3 "chunks/ab.fsl" "chunks/ab.fsl.fsl") tt)).
Proof.
  split; [reflexivity|]. split; [reflexivity|].
  simpl. intros [H | []].
  apply (f_equal Spec.is_client_call) in H. discriminate H.
Qed.

(** C5, as the code has it.  For a non-empty name [n],
    [MoveFile (n + ".fsl") n] looks up [n] with versions (single name); it
    returns the error of a failed lookup; it returns nil without a delete
    when the listing is empty or its newest entry is not the hide marker of
    the exact name; otherwise it issues exactly one delete, on that entry's
    ID, and returns its result. *)
Theorem MoveFile_unhide {W : Type} (h : handler W) (t : Z)
    (n : string) (w w1 : W) (entries : list B2Entry) (err : option error) :
  n <> "" ->
  h _ (client_ListFileNames t n true true) w = ((entries, err), w1) ->
  match err, entries with
  | Some e, _ =>
      run h (B2Storage.MoveFile t (n +:+ ".fsl") n) w
      = (Returned (Some e), w1, [Called (client_ListFileNames t n true true)])
  | None, [] =>
      run h (B2Storage.MoveFile t (n +:+ ".fsl") n) w
      = (Returned None, w1, [Called (client_ListFileNames t n true true)])
  | None, newest :: _ =>
      if (FileName newest =? n)%string && (Action newest =? "hide")%string then
        run h (B2Storage.MoveFile t (n +:+ ".fsl") n) w
        = (Returned (fst (h _ (client_DeleteFile t n (FileID newest)) w1)),
           snd (h _ (client_DeleteFile t n (FileID newest)) w1),
           [Called (client_ListFileNames t n true true);
            Called (client_DeleteFile t n (FileID newest))])
      else
        run h (B2Storage.MoveFile t (n +:+ ".fsl") n) w
        = (Returned None, w1, [Called (client_ListFileNames t n true true)])
  end.
Proof.
  intros Hne Hlist. change ".fsl" with B2Storage.fsl.
  rewrite (MoveFile_unhide_run h t n w Hne), Hlist.
  destruct err as [e|]; [reflexivity|].
  destruct entries as [|newest rest]; [reflexivity|].
  fold (Spec.is_marker n newest).
  destruct (Spec.is_marker n newest); [|reflexivity].
  now destruct (h _ (client_DeleteFile t n (FileID newest)) w1).
Qed.

Lemma MoveFile_unhide_witness :
  run (stub (tl sample_versions) 0) (B2Storage.MoveFile 3 "chunks/ab.fsl" "chunks/ab") tt
  = (Returned None, tt,
     [Called (client_ListFileNames 3 "chunks/ab" true true);
      Called (client_DeleteFile 3 "chunks/ab" "v4")]).
Proof.
  refine (MoveFile_unhide (stub (tl sample_versions) 0) 3 "chunks/ab" tt tt
            (tl sample_versions) None _ eq_refl).
  discriminate.
Defined.

(** C5, as stated, holds of every name.  For the empty name the pair
    [(".fsl", "")] is taken for an unsupported move: no lookup is issued and
    the hide marker the client would have listed is not deleted. *)
Lemma MoveFile_unhide_empty_name_is_fatal :
  run (stub [mkEntry "v1" "" "hide" 0] 0)
      (B2Storage.MoveFile 3 ("" +:+ ".fsl") "") tt
  = (Returned None, tt, [Spec.fatal_move ".fsl" ""])
  /\ ~ In (Called (client_ListFileNames 3 "" true true))
         (calls_of (run (stub [mkEntry "v1" "" "hide" 0] 0)
                        (B2Storage.MoveFile 3 ("" +:+ ".fsl") "") tt))
  /\ ~ In (Called (client_DeleteFile 3 "" "v1"))
         (calls_of (run (stub [mkEntry "v1" "" "hide" 0] 0)
                        (B2Storage.MoveFile 3 ("" +:+ ".fsl") "") tt)).
Proof.
  split; [reflexivity|].
  split; simpl; intros [H | []];
    apply (f_equal Spec.is_client_call) in H; discriminate H.
Qed.

(** ** Stat *)

Section GetFileInfo.

Context {W : Type} (h : handler W).
Variable t : Z.

Lemma GetFileInfo_fossil_run (p : string) (w : W) :
  run h (B2Storage.GetFileInfo t (p +:+ B2Storage.fsl)) w =
  let '((entries, err), w1) := h _ (client_ListFileNames t p true true) w in
  (Returned match err with
            | Some e => Spec.failed_info e
            | None => Spec.fossil_info p entries
            end,
   w1, [Called (client_ListFileNames t p true true)]).
Proof.
  unfold B2Storage.GetFileInfo.
  rewrite HasSuffix_append, slice_to_append. simpl.
  destruct (h _ (client_ListFileNames t p true true) w)
    as [[[|newest rest] [e|]] w1]; simpl; try reflexivity.
  unfold Spec.is_marker.
  now destruct (FileName newest =? p)%string, (Action newest =? "hide")%string.
Qed.

Lemma GetFileInfo_plain_run (p : string) (w : W) :
  Go.HasSuffix p B2Storage.fsl = false ->
  run h (B2Storage.GetFileInfo t p) w =
  let '((entries, err), w1) := h _ (client_ListFileNames t p true false) w in
  (Returned match err with
            | Some e => Spec.failed_info e
            | None => Spec.plain_info p entries
            end,
   w1, [Called (client_ListFileNames t p true false)]).
Proof.
  intros Hp. unfold B2Storage.GetFileInfo. rewrite Hp. simpl.
  destruct (h _ (client_ListFileNames t p true false) w)
    as [[[|newest rest] [e|]] w1]; simpl; try reflexivity.
  unfold Spec.same_name.
  now destruct (FileName newest =? p)%string.
Qed.

Lemma fossil_info_isDir (p : string) (entries : list B2Entry) :
  snd (fst (fst (Spec.fossil_info p entries))) = false.
Proof.
  destruct entries as [|newest rest]; simpl; [reflexivity|].
  now destruct (Spec.is_marker p newest).
Qed.

Lemma plain_info_isDir (p : string) (entries : list B2Entry) :
  snd (fst (fst (Spec.plain_info p entries))) = false.
Proof.
  destruct entries as [|newest rest]; simpl; [reflexivity|].
  now destruct (Spec.same_name p newest).
Qed.

End GetFileInfo.

(** C6. [GetFileInfo] always returns, with [isDir = false], on every path
    and whatever the client answers.  On a path [p.fsl] it issues one
    lookup of the bare name [p] with versions (single name); when the
    lookup succeeds it reports [exist = true] with the size of the newest
    entry exactly when that entry has the name [p] and the action ["hide"],
    and [exist = false] with size 0 otherwise; a failed lookup is reported
    as [exist = false], size 0 and the client's error. *)
Theorem GetFileInfo_fossil {W : Type} (h : handler W) (t : Z) :
  (forall (path : string) (w : W),
     exists exist size err,
       result_of (run h (B2Storage.GetFileInfo t path) w)
       = Returned (exist, false, size, err))
  /\ (forall (p : string) (w w1 : W) (entries : list B2Entry) (err : option error),
        h _ (client_ListFileNames t p true true) w = ((entries, err), w1) ->
        run h (B2Storage.GetFileInfo t (p +:+ ".fsl")) w
        = (Returned match err, entries with
                    | Some e, _ => (false, false, 0%Z, Some e)
                    | None, [] => (false, false, 0%Z, None)
                    | None, newest :: _ =>
                        if (FileName newest =? p)%string
                           && (Action newest =? "hide")%string
                        then (true, false, Size newest, None)
                        else (false, false, 0%Z, None)
                    end,
           w1, [Called (client_ListFileNames t p true true)])).
Proof.
  split.
  - intros path w.
    assert (Hshape : forall i : bool * bool * Z * option error,
               snd (fst (fst i)) = false ->
               exists exist size err, i = (exist, false, size, err)).
    { intros [[[exist isDir] size] err]; simpl; intros ->; eauto. }
    destruct (Go.HasSuffix path B2Storage.fsl) eqn:Hpath.
    + rewrite (HasSuffix_inv _ _ Hpath), GetFileInfo_fossil_run.
      set (p := substring _ _ _).
      destruct (h _ (client_ListFileNames t p true true) w) as [[entries [e|]] w1];
        unfold result_of; simpl.
      * eauto.
      * destruct (Hshape _ (fossil_info_isDir p entries)) as (x & s & e & ->); eauto.
    + rewrite (GetFileInfo_plain_run h t path w Hpath).
      destruct (h _ (client_ListFileNames t path true false) w) as [[entries [e|]] w1];
        unfold result_of; simpl.
      * eauto.
      * destruct (Hshape _ (plain_info_isDir path entries)) as (x & s & e & ->); eauto.
  - intros p w w1 entries err Hlist. change ".fsl" with B2Storage.fsl.
    rewrite GetFileInfo_fossil_run, Hlist.
    destruct err as [e|]; [reflexivity|].
    now destruct entries.
Qed.

Lemma GetFileInfo_fossil_witness :
  run (stub [mkEntry "v9" "chunks/ab" "hide" 7] 0)
      (B2Storage.GetFileInfo 3 "chunks/ab.fsl") tt
  = (Returned (true, false, 7%Z, None), tt,
     [Called (client_ListFileNames 3 "chunks/ab" true true)])
  /\ run (stub sample_versions 0) (B2Storage.GetFileInfo 3 "chunks/ab.fsl") tt
     = (Returned (false, false, 0%Z, None), tt,
        [Called (client_ListFileNames 3 "chunks/ab" true true)]).
Proof.
  split.
  - exact (proj2 (GetFileInfo_fossil (stub [mkEntry "v9" "chunks/ab" "hide" 7] 0) 3)
             "chunks/ab" tt tt [mkEntry "v9" "chunks/ab" "hide" 7] None eq_refl).
  - exact (proj2 (GetFileInfo_fossil (stub sample_versions 0) 3)
             "chunks/ab" tt tt sample_versions None eq_refl).
Defined.

(** ** Listing *)

Section ListingLoops.

Variable length : nat.

Lemma strip_cases (e : B2Entry) :
  (Spec.long_enough length e
   /\ B2Storage.strip length e = Ret (Spec.stripped length e))
  \/ (~ Spec.long_enough length e
      /\ B2Storage.strip length e = Panic "slice bounds out of range").
Proof.
  unfold Spec.long_enough, B2Storage.strip, Go.slice_from, Spec.stripped.
  destruct (Nat.leb_spec length (Go.len (FileName e))); [left | right];
    split; auto; lia.
Qed.

Lemma strip_ok (e : B2Entry) :
  Spec.long_enough length e ->
  B2Storage.strip length e = Ret (Spec.stripped length e).
Proof. intros He. destruct (strip_cases e) as [[_ H] | [H _]]; tauto. Qed.

Lemma Split_head (s : string) :
  exists pieces, Go.Split s "/" = Spec.first_segment s :: pieces.
Proof.
  induction s as [|c s [pieces IH]]; simpl.
  - now exists [].
  - destruct (Ascii.eqb c "/"); [now eexists|].
    rewrite IH. now eexists.
Qed.

Lemma plain_loop_settled (entries : list B2Entry) :
  forall files, Loops.settled (B2Storage.plain_loop length files entries).
Proof.
  induction entries as [|e rest IH]; intros files; simpl.
  - left. now eexists.
  - destruct (strip_cases e) as [[_ ->] | [_ ->]]; simpl.
    + apply IH.
    + right. now eexists.
Qed.

Lemma snapshots_loop_settled (entries : list B2Entry) :
  forall subDirs, Loops.settled (B2Storage.snapshots_loop length subDirs entries).
Proof.
  induction entries as [|e rest IH]; intros subDirs; simpl.
  - left. now eexists.
  - destruct (strip_cases e) as [[_ ->] | [_ ->]]; simpl.
    + destruct (Split_head (Spec.stripped length e)) as [pieces ->]. apply IH.
    + right. now eexists.
Qed.

Lemma plain_loop_ok (entries : list B2Entry) :
  Forall (Spec.long_enough length) entries ->
  forall files,
    B2Storage.plain_loop length files entries
    = Ret (files ++ map (Spec.stripped length) entries).
Proof.
  induction 1 as [|e rest He _ IH]; intros files; simpl.
  - now rewrite app_nil_r.
  - rewrite (strip_ok e He). simpl. rewrite IH, <- app_assoc. reflexivity.
Qed.

Lemma snapshots_loop_ok (entries : list B2Entry) :
  Forall (Spec.long_enough length) entries ->
  forall subDirs,
    B2Storage.snapshots_loop length subDirs entries
    = Ret (fold_left (Loops.note_subdir length) entries subDirs).
Proof.
  induction 1 as [|e rest He _ IH]; intros subDirs; simpl.
  - reflexivity.
  - rewrite (strip_ok e He). simpl.
    destruct (Split_head (Spec.stripped length e)) as [pieces ->].
    apply IH.
Qed.

Lemma noted_subdirs (entries : list B2Entry) :
  forall (subDirs : gmap string bool) (x : string),
    is_Some (fold_left (Loops.note_subdir length) entries subDirs !! x)
    <-> is_Some (subDirs !! x)
        \/ exists e, e ∈ entries /\ x = Spec.subdir length e.
Proof.
  induction entries as [|e rest IH]; intros subDirs x; simpl.
  - split; [auto | intros [H | (e & He & _)]; [exact H | inversion He]].
  - rewrite IH. unfold Loops.note_subdir. rewrite lookup_insert_is_Some.
    split.
    + intros [[<- | [_ H]] | (e' & He' & ->)].
      * right. exists e. split; [constructor | reflexivity].
      * now left.
      * right. exists e'. split; [now constructor | reflexivity].
    + intros [H | (e' & He' & ->)].
      * left. destruct (decide (Spec.subdir length e = x)); auto.
      * apply elem_of_cons in He' as [-> | He']; [now left; left|].
        right. now exists e'.
Qed.

Lemma chunks_loop_ok (entries : list B2Entry) :
  0 < length ->
  Forall (Spec.long_enough length) entries ->
  forall lastFile files sizes,
    B2Storage.chunks_loop length lastFile files sizes entries
    = Ret (files ++ map (Spec.chunk_name length)
                        (Spec.retained (Loops.seen lastFile) entries),
           sizes ++ map Size (Spec.retained (Loops.seen lastFile) entries)).
Proof.
  intros Hpos. induction 1 as [|e rest He _ IH]; intros lastFile files sizes.
  - simpl. now rewrite !app_nil_r.
  - assert (Hname : (FileName e =? "")%string = false).
    { apply String.eqb_neq. intros Heq. unfold Spec.long_enough in He.
      rewrite Heq in He. simpl in He. lia. }
    assert (Hseen : Loops.seen (FileName e) = Some (FileName e)).
    { unfold Loops.seen. now rewrite Hname. }
    assert (Hkeep :
      B2Storage.chunks_loop length (FileName e)
        (if (Action e =? "hide")%string
         then files ++ [Spec.stripped length e +:+ B2Storage.fsl]
         else files ++ [Spec.stripped length e])
        (sizes ++ [Size e]) rest
      = Ret (files ++ Spec.chunk_name length e
                      :: map (Spec.chunk_name length)
                           (Spec.retained (Some (FileName e)) rest),
             sizes ++ Size e
                      :: map Size (Spec.retained (Some (FileName e)) rest))).
    { rewrite IH, Hseen. unfold Spec.chunk_name.
      destruct (Action e =? "hide")%string; now rewrite <- !app_assoc. }
    destruct (String.eqb_spec lastFile "") as [-> | Hlast].
    + change (Loops.seen "") with (@None string). simpl.
      rewrite Hname, (strip_ok e He). simpl. exact Hkeep.
    + assert (Hs : Loops.seen lastFile = Some lastFile).
      { unfold Loops.seen. apply String.eqb_neq in Hlast. now rewrite Hlast. }
      rewrite Hs. simpl.
      destruct (FileName e =? lastFile)%string eqn:Hsame.
      * now rewrite IH, Hs.
      * rewrite (strip_ok e He). simpl. exact Hkeep.
Qed.

End ListingLoops.

(** C3. Listing [chunks] asks the client for the entries below the prefix
    with versions, hide markers among them.  For every list of entries the
    client answers with, whose names reach past the prefix ["chunks/"], the
    method walks the entries in the order given, keeps an entry unless the
    one just before it has the same name, and for each entry kept emits the
    name without the prefix, with [".fsl"] appended when the action is
    ["hide"], and next to it the size of the entry; so [files] and [sizes]
    have the same length. *)
Theorem ListFiles_chunks {W : Type} (h : handler W)
    (range_order : list string -> list string) (t : Z) (dir : string)
    (w w1 : W) (entries : list B2Entry) :
  B2Storage.normalize dir = "chunks" ->
  h _ (client_ListFileNames t "chunks" false true) w = ((entries, None), w1) ->
  Forall (Spec.long_enough 7) entries ->
  run h (B2Storage.ListFiles range_order t dir) w
  = (Returned (map (Spec.chunk_name 7) (Spec.retained None entries),
               map Size (Spec.retained None entries),
               None),
     w1, [Called (client_ListFileNames t "chunks" false true)])
  /\ length (map (Spec.chunk_name 7) (Spec.retained None entries))
     = length (map Size (Spec.retained None entries)).
Proof.
  intros Hdir Hlist Hlong. split.
  - unfold B2Storage.ListFiles. rewrite Hdir. simpl. rewrite Hlist. simpl.
    rewrite (chunks_loop_ok 7 entries); [reflexivity | lia | exact Hlong].
  - now rewrite !length_map.
Qed.

Lemma ListFiles_chunks_witness :
  run (stub sample_chunks 0) (B2Storage.ListFiles (fun keys => keys) 3 "chunks") tt
  = (Returned (["0a"; "1b.fsl"], [40%Z; 0%Z], None), tt,
     [Called (client_ListFileNames 3 "chunks" false true)]).
Proof.
  refine (proj1 (ListFiles_chunks (stub sample_chunks 0) (fun keys => keys) 3
                   "chunks" tt tt sample_chunks eq_refl eq_refl _)).
  repeat constructor; unfold Spec.long_enough; simpl; lia.
Defined.

Section Snapshots.

Context {W : Type} (h : handler W).
Variable range_order : list string -> list string.
Variable t : Z.

Lemma ListFiles_snapshots_run (dir : string) (w w1 : W) (entries : list B2Entry) :
  B2Storage.normalize dir = "snapshots" ->
  h _ (client_ListFileNames t "snapshots" false false) w = ((entries, None), w1) ->
  Forall (Spec.long_enough 10) entries ->
  run h (B2Storage.ListFiles range_order t dir) w
  = (Returned (range_order
                 (map_to_list (fold_left (Loops.note_subdir 10) entries ∅)).*1,
               [], None),
     w1, [Called (client_ListFileNames t "snapshots" false false)]).
Proof.
  intros Hdir Hlist Hlong.
  unfold B2Storage.ListFiles. rewrite Hdir. simpl. rewrite Hlist. simpl.
  now rewrite (snapshots_loop_ok 10 entries Hlong).
Qed.

(** The keys of the map the loop builds are the directories of the
    entries. *)
Lemma noted_keys (entries : list B2Entry) (x : string) :
  x ∈ (map_to_list (fold_left (Loops.note_subdir 10) entries ∅)).*1
  <-> exists e, e ∈ entries /\ x = Spec.subdir 10 e.
Proof.
  rewrite list_elem_of_fmap. split.
  - intros ([k v] & -> & Hin). apply elem_of_map_to_list in Hin.
    assert (Hsome : is_Some (fold_left (Loops.note_subdir 10) entries ∅ !! k))
      by (now exists v).
    apply noted_subdirs in Hsome as [Hempty | Hex]; [|exact Hex].
    rewrite lookup_empty in Hempty. now destruct Hempty.
  - intros Hex.
    assert (Hsome : is_Some (fold_left (Loops.note_subdir 10) entries ∅ !! x))
      by (apply noted_subdirs; now right).
    destruct Hsome as [v Hv]. exists (x, v). split; [reflexivity|].
    now apply elem_of_map_to_list.
Qed.

End Snapshots.

(** C7. Listing [snapshots] asks the client for the entries below the
    prefix without versions.  For every list of entries the client answers
    with, whose names reach past the prefix ["snapshots/"], and whatever
    the order in which the runtime visits the keys of the map, the method
    returns, with no sizes, a list without duplicates whose members are
    exactly the first path segments after the prefix, each with ["/"]
    appended; the keys [snapshots/1/a], [snapshots/1/b] and [snapshots/2/c]
    give the two names ["1/"] and ["2/"], in some order. *)
Theorem ListFiles_snapshots {W : Type} (h : handler W)
    (range_order : list string -> list string) (t : Z) (dir : string)
    (w w1 : W) (entries : list B2Entry) :
  B2Storage.normalize dir = "snapshots" ->
  Spec.visits_each_key_once range_order ->
  h _ (client_ListFileNames t "snapshots" false false) w = ((entries, None), w1) ->
  Forall (Spec.long_enough 10) entries ->
  exists files,
    run h (B2Storage.ListFiles range_order t dir) w
    = (Returned (files, [], None), w1,
       [Called (client_ListFileNames t "snapshots" false false)])
    /\ NoDup files
    /\ (forall x, x ∈ files <-> exists e, e ∈ entries /\ x = Spec.subdir 10 e)
    /\ (map FileName entries = ["snapshots/1/a"; "snapshots/1/b"; "snapshots/2/c"] ->
        files ≡ₚ ["1/"; "2/"]).
Proof.
  intros Hdir Hord Hlist Hlong.
  exists (range_order (map_to_list (fold_left (Loops.note_subdir 10) entries ∅)).*1).
  split; [apply ListFiles_snapshots_run; assumption|].
  assert (Hnodup :
    NoDup (range_order (map_to_list (fold_left (Loops.note_subdir 10) entries ∅)).*1)).
  { rewrite (Hord _). apply NoDup_fst_map_to_list. }
  assert (Hmem : forall x,
    x ∈ range_order (map_to_list (fold_left (Loops.note_subdir 10) entries ∅)).*1
    <-> exists e, e ∈ entries /\ x = Spec.subdir 10 e).
  { intros x. rewrite (Hord _). apply noted_keys. }
  split; [exact Hnodup|]. split; [exact Hmem|].
  intros Hnames.
  destruct entries as [|e1 [|e2 [|e3 [|e4 more]]]]; try discriminate Hnames.
  injection Hnames as H1 H2 H3.
  assert (S1 : Spec.subdir 10 e1 = "1/")
    by (unfold Spec.subdir, Spec.stripped; now rewrite H1).
  assert (S2 : Spec.subdir 10 e2 = "1/")
    by (unfold Spec.subdir, Spec.stripped; now rewrite H2).
  assert (S3 : Spec.subdir 10 e3 = "2/")
    by (unfold Spec.subdir, Spec.stripped; now rewrite H3).
  apply NoDup_Permutation; [exact Hnodup | |].
  - apply NoDup_cons. split; [|apply NoDup_singleton].
    intros Hin. apply list_elem_of_singleton in Hin. discriminate Hin.
  - intros x. rewrite Hmem. split.
    + intros (e & He & ->).
      apply elem_of_cons in He as [-> | He]; [rewrite S1; now left|].
      apply elem_of_cons in He as [-> | He]; [rewrite S2; now left|].
      apply elem_of_cons in He as [-> | He]; [rewrite S3; right; now left|].
      inversion He.
    + intros Hx. apply elem_of_cons in Hx as [-> | Hx].
      * exists e1. split; [now left | now rewrite S1].
      * apply list_elem_of_singleton in Hx as ->.
        exists e3. split; [right; right; now left | now rewrite S3].
Qed.

Lemma ListFiles_snapshots_witness :
  exists files,
    run (stub sample_snapshots 0)
        (B2Storage.ListFiles (@rev string) 3 "snapshots") tt
    = (Returned (files, [], None), tt,
       [Called (client_ListFileNames 3 "snapshots" false false)])
    /\ files ≡ₚ ["1/"; "2/"].
Proof.
  destruct (ListFiles_snapshots (stub sample_snapshots 0) (@rev string) 3
              "snapshots" tt tt sample_snapshots eq_refl)
    as (files & Hrun & _ & _ & Hfiles).
  - intros keys. apply Permutation_sym, Permutation_rev.
  - reflexivity.
  - repeat constructor; unfold Spec.long_enough; simpl; lia.
  - exists files. split; [exact Hrun | apply Hfiles; reflexivity].
Defined.

(** C9. For every directory other than [chunks] (after the trailing
    slashes are dropped), [snapshots] among them, whatever [ListFiles]
    returns carries no sizes, also when it returns files; and it does
    return unless a listed name is too short to be stripped of the
    prefix. *)
Theorem ListFiles_sizes_only_for_chunks {W : Type} (h : handler W)
    (range_order : list string -> list string) (t : Z) (dir : string) (w : W) :
  B2Storage.normalize dir <> "chunks" ->
  match result_of (run h (B2Storage.ListFiles range_order t dir) w) with
  | Returned (files, sizes, err) => sizes = []
  | Panicked _ =>
      ~ Forall (Spec.long_enough (Go.len (B2Storage.normalize dir) + 1))
          (fst (fst (h _ (client_ListFileNames t (B2Storage.normalize dir)
                            false false) w)))
  end.
Proof.
  intros Hdir. unfold B2Storage.ListFiles.
  set (d := B2Storage.normalize dir) in *.
  apply String.eqb_neq in Hdir. rewrite Hdir. simpl.
  destruct (h _ (client_ListFileNames t d false false) w)
    as [[entries [e|]] w1]; simpl; [reflexivity|].
  destruct (d =? "snapshots")%string.
  - destruct (snapshots_loop_settled (Go.len d + 1) entries ∅)
      as [[r Hr] | [msg Hmsg]].
    + rewrite Hr. reflexivity.
    + rewrite Hmsg. simpl. intros Hlong.
      rewrite (snapshots_loop_ok _ entries Hlong) in Hmsg. discriminate Hmsg.
  - destruct (plain_loop_settled (Go.len d + 1) entries [])
      as [[r Hr] | [msg Hmsg]].
    + rewrite Hr. reflexivity.
    + rewrite Hmsg. simpl. intros Hlong.
      rewrite (plain_loop_ok _ entries Hlong) in Hmsg. discriminate Hmsg.
Qed.

Lemma ListFiles_sizes_only_for_chunks_witness :
  result_of (run (stub sample_snapshots 0)
                 (B2Storage.ListFiles (fun keys => keys) 3 "snapshots/") tt)
  = Returned (["1/"; "2/"], [], None)
  /\ match result_of (run (stub sample_snapshots 0)
                         (B2Storage.ListFiles (fun keys => keys) 3 "snapshots/") tt)
     with
     | Returned (files, sizes, err) => sizes = []
     | Panicked _ => False
     end.
Proof.
  split; [reflexivity|].
  refine (ListFiles_sizes_only_for_chunks (stub sample_snapshots 0)
            (fun keys => keys) 3 "snapshots/" tt _).
  discriminate.
Defined.

(** ** Upload and download *)

Section Transfer.

Lemma int_wrap_small (z : Z) : Go.in_int z -> Go.int_wrap z = z.
Proof.
  unfold Go.in_int, Go.int_wrap. intros Hz.
  rewrite Z.mod_small; lia.
Qed.

Lemma quot_in_int (x y : Z) : Go.in_int x -> (0 < y)%Z -> Go.in_int (Z.quot x y).
Proof.
  unfold Go.in_int. intros Hx Hy.
  destruct (Z.le_gt_cases 0 x) as [Hpos | Hneg].
  - rewrite Z.quot_div_nonneg by lia.
    pose proof (Z.div_pos x y Hpos Hy).
    assert (x / y <= x)%Z by (apply Z.div_le_upper_bound; nia).
    lia.
  - replace x with (- - x)%Z by lia.
    rewrite Z.quot_opp_l by lia.
    rewrite Z.quot_div_nonneg by lia.
    assert (0 <= - x / y)%Z by (apply Z.div_pos; lia).
    assert (- x / y <= - x)%Z by (apply Z.div_le_upper_bound; nia).
    lia.
Qed.

(** With a positive divisor the division on [int] is the truncated
    quotient, without any wrap-around. *)
Lemma int_quo_exact (x y : Z) :
  Go.in_int x -> (0 < y)%Z -> Go.int_quo x y = Some (Z.quot x y).
Proof.
  intros Hx Hy. unfold Go.int_quo.
  destruct (Z.eqb_spec y 0); [lia|].
  now rewrite int_wrap_small by now apply quot_in_int.
Qed.

End Transfer.

(** C8. With a thread count other than zero, an upload reads the upload
    limit of the storage and passes the client's [UploadFile] that limit
    divided by the thread count, and a download whose stream was opened
    passes the rate-limited copy the download limit divided by the thread
    count; the division is Go's division on [int], which for a positive
    thread count is the truncated quotient.  An upload returns what the
    client's [UploadFile] returns; a download returns the client's error
    when the stream cannot be opened and the result of the copy
    otherwise. *)
Theorem transfer_rate_limits {W : Type} (h : handler W) (storage : B2Storage)
    (t : Z) (filePath : string) (w : W) :
  Threads (client storage) <> 0%Z ->
  (forall (content : list Byte.byte) (limit : Z) (w1 : W),
     h _ storage_UploadRateLimit w = (limit, w1) ->
     let rate := Go.int_wrap (Z.quot limit (Threads (client storage))) in
     run h (B2Storage.UploadFile storage t filePath content) w
     = (Returned (fst (h _ (client_UploadFile t filePath content rate) w1)),
        snd (h _ (client_UploadFile t filePath content rate) w1),
        [Called storage_UploadRateLimit;
         Called (client_UploadFile t filePath content rate)]))
  /\ (forall (chunk : Chunk) (readCloser : ReadCloser) (size : Z)
        (err : option error) (w1 : W),
        h _ (client_DownloadFile t filePath) w = ((readCloser, size, err), w1) ->
        let rate :=
          Go.int_wrap (Z.quot (DownloadRateLimit storage) (Threads (client storage))) in
        match err with
        | Some e =>
            run h (B2Storage.DownloadFile storage t filePath chunk) w
            = (Returned (Some e), w1, [Called (client_DownloadFile t filePath)])
        | None =>
            let copied := h _ (RateLimitedCopy chunk readCloser rate) w1 in
            run h (B2Storage.DownloadFile storage t filePath chunk) w
            = (Returned (snd (fst copied)),
               snd (h _ (readCloser_Close readCloser) (snd copied)),
               [Called (client_DownloadFile t filePath);
                Called (RateLimitedCopy chunk readCloser rate);
                Called (readCloser_Close readCloser)])
        end)
  /\ (forall limit : Z,
        Go.in_int limit -> (0 < Threads (client storage))%Z ->
        Go.int_wrap (Z.quot limit (Threads (client storage)))
        = Z.quot limit (Threads (client storage))).
Proof.
  intros Hthreads.
  assert (Hquo : forall x,
    Go.int_quo x (Threads (client storage))
    = Some (Go.int_wrap (Z.quot x (Threads (client storage))))).
  { intros x. unfold Go.int_quo.
    destruct (Z.eqb_spec (Threads (client storage)) 0); [contradiction | reflexivity]. }
  split; [|split].
  - intros content limit w1 Hlimit rate.
    unfold B2Storage.UploadFile. simpl. rewrite Hlimit. rewrite Hquo. simpl.
    fold rate. now destruct (h _ (client_UploadFile t filePath content rate) w1).
  - intros chunk readCloser size err w1 Hopen rate.
    unfold B2Storage.DownloadFile. simpl. rewrite Hopen.
    destruct err as [e|]; [reflexivity|].
    rewrite Hquo. simpl. fold rate.
    destruct (h _ (RateLimitedCopy chunk readCloser rate) w1) as [[n err] w2].
    simpl. now destruct (h _ (readCloser_Close readCloser) w2).
  - intros limit Hlimit Hpos. apply int_wrap_small. now apply quot_in_int.
Qed.

Lemma transfer_rate_limits_witness :
  run (stub [] 100) (B2Storage.UploadFile sample_storage 3 "chunks/ab" []) tt
  = (Returned None, tt,
     [Called storage_UploadRateLimit;
      Called (client_UploadFile 3 "chunks/ab" [] 33)])
  /\ run (stub [] 100)
         (B2Storage.DownloadFile sample_storage 3 "chunks/ab" (chunk_buffer 1)) tt
     = (Returned None, tt,
        [Called (client_DownloadFile 3 "chunks/ab");
         Called (RateLimitedCopy (chunk_buffer 1) (stream 0) 333);
         Called (readCloser_Close (stream 0))])
  /\ run (failing "timeout")
         (B2Storage.DownloadFile sample_storage 3 "chunks/ab" (chunk_buffer 1)) tt
     = (Returned (Some "timeout"), tt, [Called (client_DownloadFile 3 "chunks/ab")]).
Proof.
  assert (Hthreads : Threads (client sample_storage) <> 0%Z) by discriminate.
  split; [|split].
  - exact (proj1 (transfer_rate_limits (stub [] 100) sample_storage 3 "chunks/ab"
                    tt Hthreads) [] 100%Z tt eq_refl).
  - exact (proj1 (proj2 (transfer_rate_limits (stub [] 100) sample_storage 3
                           "chunks/ab" tt Hthreads))
             (chunk_buffer 1) (stream 0) 0%Z None tt eq_refl).
  - exact (proj1 (proj2 (transfer_rate_limits (failing "timeout") sample_storage 3
                           "chunks/ab" tt Hthreads))
             (chunk_buffer 1) (stream 0) 0%Z (Some "timeout") tt eq_refl).
Defined.

(** * Further properties of the adapter *)

(** ** Trailing slashes *)

Section TrailingSlashes.

Lemma append_assoc (a b c : string) : (a +:+ b) +:+ c = a +:+ (b +:+ c).
Proof.
  induction a as [|x a IH]; [reflexivity|].
  change (String x ((a +:+ b) +:+ c) = String x (a +:+ (b +:+ c))).
  now rewrite IH.
Qed.

Lemma append_empty_r (a : string) : a +:+ "" = a.
Proof.
  induction a as [|x a IH]; [reflexivity|].
  change (String x (a +:+ "") = String x a). now rewrite IH.
Qed.

Lemma string_snoc_cases (s : string) :
  s = "" \/ exists a c, s = a +:+ String c "".
Proof.
  induction s as [|x s [-> | (a & c & ->)]].
  - now left.
  - right. now exists "", x.
  - right. now exists (String x a), c.
Qed.

Lemma len_snoc (a : string) (c : ascii) :
  Go.len (a +:+ String c "") = S (Go.len a).
Proof. rewrite len_append. unfold Go.len. simpl. lia. Qed.

Lemma last_byte_snoc (a : string) (c : ascii) :
  Go.last_byte (a +:+ String c "") = Some c.
Proof.
  unfold Go.last_byte. rewrite len_snoc.
  replace (S (Go.len a) - 1) with (Go.len a) by lia.
  unfold Go.len. induction a as [|x a IH]; [reflexivity | exact IH].
Qed.

Lemma init_snoc (a : string) (c : ascii) :
  substring 0 (Go.len (a +:+ String c "") - 1) (a +:+ String c "") = a.
Proof.
  rewrite len_snoc. replace (S (Go.len a) - 1) with (Go.len a) by lia.
  apply substring_append_left.
Qed.

Lemma slashes_snoc (k : nat) :
  Log.slashes k +:+ "/" = Log.slashes (S k).
Proof.
  induction k as [|k IH]; [reflexivity|].
  change (String "/" (Log.slashes k +:+ "/") = String "/" (Log.slashes (S k))).
  now rewrite IH.
Qed.

Lemma HasSuffix_slash_snoc (a : string) (c : ascii) :
  Go.HasSuffix (a +:+ String c "") "/" = Ascii.eqb c "/".
Proof.
  destruct (Ascii.eqb_spec c "/") as [-> | Hc].
  - apply HasSuffix_append.
  - destruct (Go.HasSuffix (a +:+ String c "") "/") eqn:H; [|reflexivity].
    apply HasSuffix_iff in H as [q Hq].
    apply (f_equal Go.last_byte) in Hq.
    rewrite !last_byte_snoc in Hq. congruence.
Qed.

(** One turn of the loop on a directory that ends in a slash. *)
Lemma trim_slashes_slash (turns : nat) (dir : string) :
  B2Storage.trim_slashes (S turns) (dir +:+ "/")
  = B2Storage.trim_slashes turns dir.
Proof.
  cbn [B2Storage.trim_slashes].
  rewrite last_byte_snoc, init_snoc, len_snoc. reflexivity.
Qed.

Lemma trim_slashes_spec (turns : nat) :
  forall dir, Go.len dir <= turns ->
    Go.HasSuffix (B2Storage.trim_slashes turns dir) "/" = false
    /\ exists k, dir = B2Storage.trim_slashes turns dir +:+ Log.slashes k.
Proof.
  induction turns as [|turns IH]; intros dir Hlen.
  - destruct dir; [|unfold Go.len in Hlen; simpl in Hlen; lia].
    split; [reflexivity | now exists 0].
  - destruct (string_snoc_cases dir) as [-> | (a & c & ->)].
    + split; [reflexivity | now exists 0].
    + rewrite len_snoc in Hlen.
      destruct (Ascii.eqb_spec c "/") as [-> | Hc].
      * rewrite trim_slashes_slash.
        destruct (IH a ltac:(lia)) as [Hend [k Hk]].
        split; [exact Hend|]. exists (S k).
        rewrite <- slashes_snoc, <- append_assoc. now rewrite <- Hk.
      * assert (Hstay : B2Storage.trim_slashes (S turns) (a +:+ String c "")
                        = a +:+ String c "").
        { cbn [B2Storage.trim_slashes]. rewrite last_byte_snoc.
          apply Ascii.eqb_neq in Hc. rewrite Hc. now rewrite andb_false_r. }
        rewrite Hstay. split.
        -- rewrite HasSuffix_slash_snoc. now apply Ascii.eqb_neq.
        -- exists 0. now rewrite append_empty_r.
Qed.

Lemma normalize_slashes (dir : string) (k : nat) :
  B2Storage.normalize (dir +:+ Log.slashes k) = B2Storage.normalize dir.
Proof.
  induction k as [|k IH]; [now rewrite append_empty_r|].
  rewrite <- slashes_snoc, <- append_assoc.
  unfold B2Storage.normalize in *. rewrite len_snoc, trim_slashes_slash.
  exact IH.
Qed.

End TrailingSlashes.

(** X1. The loop at the head of [ListFiles] removes trailing slashes and
    nothing else: the directory is the normalized directory followed by
    slashes only, and the normalized directory does not end in a slash. *)
Theorem normalize_removes_trailing_slashes (dir : string) :
  Go.HasSuffix (B2Storage.normalize dir) "/" = false
  /\ exists k, dir = B2Storage.normalize dir +:+ Log.slashes k.
Proof. apply trim_slashes_spec. lia. Qed.

(** X2. Trailing slashes on the directory make no difference to
    [ListFiles]: with any number of them appended the method is the same
    program, so it issues the same calls and gives the same result. *)
Theorem ListFiles_ignores_trailing_slashes
    (range_order : list string -> list string) (t : Z) (dir : string) (k : nat) :
  B2Storage.ListFiles range_order t (dir +:+ Log.slashes k)
  = B2Storage.ListFiles range_order t dir.
Proof.
  unfold B2Storage.ListFiles. now rewrite normalize_slashes.
Qed.

(** ** More on listing *)

Section ListingMore.

Variable length : nat.

Lemma chunks_loop_settled (entries : list B2Entry) :
  forall lastFile files sizes,
    Loops.settled (B2Storage.chunks_loop length lastFile files sizes entries).
Proof.
  induction entries as [|e rest IH]; intros lastFile files sizes; simpl.
  - left. now eexists.
  - destruct (FileName e =? lastFile)%string; [apply IH|].
    destruct (strip_cases length e) as [[_ ->] | [_ ->]]; simpl.
    + apply IH.
    + right. now eexists.
Qed.

Lemma strip_short (e : B2Entry) :
  ~ Spec.long_enough length e ->
  B2Storage.strip length e = Panic "slice bounds out of range".
Proof. intros He. destruct (strip_cases length e) as [[H _] | [_ H]]; tauto. Qed.

Lemma plain_loop_short (entries : list B2Entry) :
  Exists (fun e => ~ Spec.long_enough length e) entries ->
  forall files,
    B2Storage.plain_loop length files entries
    = Panic "slice bounds out of range".
Proof.
  induction entries as [|e rest IH]; intros Hshort files.
  - inversion Hshort.
  - simpl. destruct (strip_cases length e) as [[He ->] | [_ ->]]; simpl.
    + apply IH. now inversion Hshort.
    + reflexivity.
Qed.

Lemma snapshots_loop_short (entries : list B2Entry) :
  Exists (fun e => ~ Spec.long_enough length e) entries ->
  forall subDirs,
    B2Storage.snapshots_loop length subDirs entries
    = Panic "slice bounds out of range".
Proof.
  induction entries as [|e rest IH]; intros Hshort subDirs.
  - inversion Hshort.
  - simpl. destruct (strip_cases length e) as [[He ->] | [_ ->]]; simpl.
    + destruct (Split_head (Spec.stripped length e)) as [pieces ->].
      apply IH. now inversion Hshort.
    + reflexivity.
Qed.

(** In the chunk loop [lastFile] is empty or the name of an entry that
    was stripped; so a short name that is not empty is never taken for a
    duplicate. *)
Lemma chunks_loop_short (entries : list B2Entry) :
  Exists (Log.too_short length) entries ->
  forall lastFile files sizes,
    lastFile = "" \/ length <= Go.len lastFile ->
    B2Storage.chunks_loop length lastFile files sizes entries
    = Panic "slice bounds out of range".
Proof.
  induction entries as [|e rest IH]; intros Hshort lastFile files sizes Hlast.
  - inversion Hshort.
  - simpl. destruct (String.eqb_spec (FileName e) lastFile) as [Hsame | Hdiff].
    + apply IH; [|exact Hlast].
      inversion Hshort as [? ? [Hne Hlt] | ? ? Hrest]; subst; [|exact Hrest].
      exfalso. destruct Hlast as [Hlast | Hlast]; [now apply Hne | lia].
    + destruct (strip_cases length e) as [[He ->] | [_ ->]]; simpl.
      * apply IH; [|now right].
        inversion Hshort as [? ? [Hne Hlt] | ? ? Hrest]; subst; [|exact Hrest].
        unfold Spec.long_enough in He. lia.
      * reflexivity.
Qed.

(** An older version right after a newer one of the same name changes
    nothing in the chunk loop. *)
Lemma chunks_loop_older (newer older : B2Entry) (after : list B2Entry) :
  FileName older = FileName newer ->
  forall lastFile files sizes,
    B2Storage.chunks_loop length lastFile files sizes (newer :: older :: after)
    = B2Storage.chunks_loop length lastFile files sizes (newer :: after).
Proof.
  intros Hname lastFile files sizes.
  cbn [B2Storage.chunks_loop]. rewrite Hname.
  destruct (FileName newer =? lastFile)%string; [reflexivity|].
  destruct (strip_cases length newer) as [[_ ->] | [_ ->]]; [|reflexivity].
  cbn [bind]. now rewrite String.eqb_refl.
Qed.

Lemma chunks_loop_congr (l1 l2 : list B2Entry) :
  (forall lastFile files sizes,
     B2Storage.chunks_loop length lastFile files sizes l1
     = B2Storage.chunks_loop length lastFile files sizes l2) ->
  forall before lastFile files sizes,
    B2Storage.chunks_loop length lastFile files sizes (before ++ l1)
    = B2Storage.chunks_loop length lastFile files sizes (before ++ l2).
Proof.
  intros Hl. induction before as [|e before IH]; intros lastFile files sizes.
  - apply Hl.
  - simpl. destruct (FileName e =? lastFile)%string; [apply IH|].
    destruct (strip_cases length e) as [[_ ->] | [_ ->]]; [|reflexivity].
    simpl. apply IH.
Qed.

End ListingMore.

Section ListFilesMore.

Context {W : Type} (h : handler W).
Variable range_order : list string -> list string.
Variable t : Z.

(** The whole of [ListFiles] in terms of the loop of the branch taken. *)
Lemma ListFiles_run (dir : string) (w : W) :
  let d := B2Storage.normalize dir in
  let request := client_ListFileNames t d false (d =? "chunks")%string in
  run h (B2Storage.ListFiles range_order t dir) w =
  let '((entries, err), w1) := h _ request w in
  match err with
  | Some e => (Returned ([], [], Some e), w1, [Called request])
  | None =>
      if (d =? "snapshots")%string then
        match B2Storage.snapshots_loop (Go.len d + 1) ∅ entries with
        | Ret subDirs =>
            (Returned (range_order (map_to_list subDirs).*1, [], None),
             w1, [Called request])
        | Panic msg => (Panicked msg, w1, [Called request])
        | Vis _ _ => (Panicked "", w1, [])
        end
      else if (d =? "chunks")%string then
        match B2Storage.chunks_loop (Go.len d + 1) "" [] [] entries with
        | Ret (files, sizes) =>
            (Returned (files, sizes, None), w1, [Called request])
        | Panic msg => (Panicked msg, w1, [Called request])
        | Vis _ _ => (Panicked "", w1, [])
        end
      else
        match B2Storage.plain_loop (Go.len d + 1) [] entries with
        | Ret files => (Returned (files, [], None), w1, [Called request])
        | Panic msg => (Panicked msg, w1, [Called request])
        | Vis _ _ => (Panicked "", w1, [])
        end
  end.
Proof.
  intros d request. unfold B2Storage.ListFiles. fold d.
  cbn [bind call run]. fold request.
  destruct (h _ request w) as [[entries [e|]] w1]; [reflexivity|].
  destruct (d =? "snapshots")%string; [|destruct (d =? "chunks")%string].
  - destruct (snapshots_loop_settled (Go.len d + 1) entries ∅)
      as [[r ->] | [msg ->]]; reflexivity.
  - destruct (chunks_loop_settled (Go.len d + 1) entries "" [] [])
      as [[[files sizes] ->] | [msg ->]]; reflexivity.
  - destruct (plain_loop_settled (Go.len d + 1) entries [])
      as [[r ->] | [msg ->]]; reflexivity.
Qed.

End ListFilesMore.

(** X3. For a directory that is neither [chunks] nor [snapshots],
    [ListFiles] asks for the entries below the prefix without versions and,
    when every name reaches past the prefix, returns the names without the
    prefix in the order listed, one per entry and duplicates kept, with no
    sizes. *)
Theorem ListFiles_plain {W : Type} (h : handler W)
    (range_order : list string -> list string) (t : Z) (dir : string)
    (w w1 : W) (entries : list B2Entry) :
  let d := B2Storage.normalize dir in
  d <> "chunks" -> d <> "snapshots" ->
  h _ (client_ListFileNames t d false false) w = ((entries, None), w1) ->
  Forall (Spec.long_enough (Go.len d + 1)) entries ->
  run h (B2Storage.ListFiles range_order t dir) w
  = (Returned (map (Spec.stripped (Go.len d + 1)) entries, [], None),
     w1, [Called (client_ListFileNames t d false false)]).
Proof.
  intros d Hchunks Hsnapshots Hlist Hlong.
  rewrite ListFiles_run. fold d.
  apply String.eqb_neq in Hchunks, Hsnapshots.
  rewrite Hchunks, Hsnapshots, Hlist.
  now rewrite (plain_loop_ok _ entries Hlong).
Qed.

Lemma ListFiles_plain_witness :
  run (stub sample_plain 0) (B2Storage.ListFiles (fun keys => keys) 3 "conf/") tt
  = (Returned (["keys"; "config"], [], None), tt,
     [Called (client_ListFileNames 3 "conf" false false)]).
Proof.
  refine (ListFiles_plain (stub sample_plain 0) (fun keys => keys) 3 "conf/"
            tt tt sample_plain _ _ eq_refl _).
  - discriminate.
  - discriminate.
  - repeat constructor; unfold Spec.long_enough; simpl; lia.
Defined.

(** X4. Whatever the directory and whatever the client answers,
    [ListFiles] issues exactly one call: a listing of the normalized
    directory, not restricted to a single name, with versions exactly for
    [chunks].  It never deletes, hides or uploads.  When that listing
    fails, its error is returned with no files and no sizes. *)
Theorem ListFiles_one_listing {W : Type} (h : handler W)
    (range_order : list string -> list string) (t : Z) (dir : string) (w : W) :
  let d := B2Storage.normalize dir in
  let request := client_ListFileNames t d false (d =? "chunks")%string in
  calls_of (run h (B2Storage.ListFiles range_order t dir) w) = [Called request]
  /\ (forall e, snd (fst (h _ request w)) = Some e ->
      result_of (run h (B2Storage.ListFiles range_order t dir) w)
      = Returned ([], [], Some e)).
Proof.
  intros d request. rewrite ListFiles_run. fold d. fold request.
  destruct (h _ request w) as [[entries [e|]] w1]; simpl.
  - split; [reflexivity|]. now intros e' [= <-].
  - split; [|discriminate].
    destruct (d =? "snapshots")%string; [|destruct (d =? "chunks")%string].
    + destruct (snapshots_loop_settled (Go.len d + 1) entries ∅)
        as [[r ->] | [msg ->]]; reflexivity.
    + destruct (chunks_loop_settled (Go.len d + 1) entries "" [] [])
        as [[[files sizes] ->] | [msg ->]]; reflexivity.
    + destruct (plain_loop_settled (Go.len d + 1) entries [])
        as [[r ->] | [msg ->]]; reflexivity.
Qed.

Lemma ListFiles_one_listing_witness :
  calls_of (run (failing "timeout")
                (B2Storage.ListFiles (fun keys => keys) 3 "chunks/") tt)
  = [Called (client_ListFileNames 3 "chunks" false true)]
  /\ result_of (run (failing "timeout")
                    (B2Storage.ListFiles (fun keys => keys) 3 "chunks/") tt)
     = Returned ([], [], Some "timeout").
Proof.
  destruct (ListFiles_one_listing (failing "timeout") (fun keys => keys) 3
              "chunks/" tt) as [Hcalls Hfail].
  split; [exact Hcalls | exact (Hfail "timeout" eq_refl)].
Defined.

(** X5. [ListFiles] strips the prefix by slicing, without a check: when the
    listing has an entry whose name is not empty and is shorter than the
    prefix with its slash, the method panics on the slice instead of
    returning; in every directory other than [chunks] an empty name does
    the same. *)
Theorem ListFiles_short_name_panics {W : Type} (h : handler W)
    (range_order : list string -> list string) (t : Z) (dir : string)
    (w w1 : W) (entries : list B2Entry) :
  let d := B2Storage.normalize dir in
  h _ (client_ListFileNames t d false (d =? "chunks")%string) w
  = ((entries, None), w1) ->
  (Exists (Log.too_short (Go.len d + 1)) entries
   \/ (d <> "chunks"
       /\ Exists (fun e => ~ Spec.long_enough (Go.len d + 1) e) entries)) ->
  run h (B2Storage.ListFiles range_order t dir) w
  = (Panicked "slice bounds out of range", w1,
     [Called (client_ListFileNames t d false (d =? "chunks")%string)]).
Proof.
  intros d Hlist Hshort. rewrite ListFiles_run. fold d. rewrite Hlist.
  assert (Hweak : forall l,
    Exists (Log.too_short (Go.len d + 1)) l ->
    Exists (fun e => ~ Spec.long_enough (Go.len d + 1) e) l).
  { intros l Hl. eapply Exists_impl; [exact Hl|]. intros e [_ Hlt].
    unfold Spec.long_enough. lia. }
  destruct (String.eqb_spec d "snapshots") as [Hs | Hs].
  - rewrite snapshots_loop_short; [reflexivity|].
    destruct Hshort as [H | [_ H]]; auto.
  - destruct (String.eqb_spec d "chunks") as [Hc | Hc].
    + destruct Hshort as [H | [Hne _]]; [|contradiction].
      rewrite chunks_loop_short; [reflexivity | exact H | now left].
    + rewrite plain_loop_short; [reflexivity|].
      destruct Hshort as [H | [_ H]]; auto.
Qed.

Lemma ListFiles_short_name_panics_witness :
  run (stub [mkEntry "c1" "chunks" "upload" 1] 0)
      (B2Storage.ListFiles (fun keys => keys) 3 "chunks") tt
  = (Panicked "slice bounds out of range", tt,
     [Called (client_ListFileNames 3 "chunks" false true)]).
Proof.
  refine (ListFiles_short_name_panics (stub [mkEntry "c1" "chunks" "upload" 1] 0)
            (fun keys => keys) 3 "chunks" tt tt
            [mkEntry "c1" "chunks" "upload" 1] eq_refl _).
  left. constructor. split; [discriminate | simpl; lia].
Defined.

(** X6. In the listing of [chunks] only the first of consecutive versions
    of a name counts: with an older version of the same name placed right
    after any entry of the listing, the method gives the same result. *)
Theorem ListFiles_chunks_ignores_older_versions {W W' : Type}
    (h : handler W) (h' : handler W')
    (range_order : list string -> list string) (t : Z) (dir : string)
    (w w1 : W) (w' w1' : W') (newer older : B2Entry)
    (before after : list B2Entry) :
  B2Storage.normalize dir = "chunks" ->
  FileName older = FileName newer ->
  h _ (client_ListFileNames t "chunks" false true) w
  = ((before ++ newer :: older :: after, None), w1) ->
  h' _ (client_ListFileNames t "chunks" false true) w'
  = ((before ++ newer :: after, None), w1') ->
  result_of (run h (B2Storage.ListFiles range_order t dir) w)
  = result_of (run h' (B2Storage.ListFiles range_order t dir) w').
Proof.
  intros Hdir Hname Hlist Hlist'.
  rewrite !ListFiles_run, Hdir. simpl. rewrite Hlist, Hlist'.
  rewrite (chunks_loop_congr 7 _ _ (chunks_loop_older 7 newer older after Hname)).
  destruct (chunks_loop_settled 7 (before ++ newer :: after) "" [] [])
    as [[[files sizes] ->] | [msg ->]]; reflexivity.
Qed.

Lemma ListFiles_chunks_ignores_older_versions_witness :
  result_of (run (stub sample_chunks 0)
                 (B2Storage.ListFiles (fun keys => keys) 3 "chunks") tt)
  = result_of (run (stub [mkEntry "c4" "chunks/0a" "upload" 40;
                          mkEntry "c2" "chunks/1b" "hide" 0;
                          mkEntry "c1" "chunks/1b" "upload" 10] 0)
                   (B2Storage.ListFiles (fun keys => keys) 3 "chunks") tt).
Proof.
  exact (ListFiles_chunks_ignores_older_versions
           (stub sample_chunks 0)
           (stub [mkEntry "c4" "chunks/0a" "upload" 40;
                  mkEntry "c2" "chunks/1b" "hide" 0;
                  mkEntry "c1" "chunks/1b" "upload" 10] 0)
           (fun keys => keys) 3 "chunks" tt tt tt tt
           (mkEntry "c4" "chunks/0a" "upload" 40)
           (mkEntry "c3" "chunks/0a" "upload" 30)
           []
           [mkEntry "c2" "chunks/1b" "hide" 0; mkEntry "c1" "chunks/1b" "upload" 10]
           eq_refl eq_refl eq_refl eq_refl).
Defined.

(** ** More on deleting *)

Section DeleteMore.

Context {W : Type} (h : handler W).
Variable t : Z.

Lemma delete_loop_no_marker (p : string) (entries : list B2Entry) :
  Forall (fun e => Spec.is_marker p e = false) entries ->
  B2Storage.delete_loop t p false entries = Ret None.
Proof.
  induction 1 as [|e rest He _ IH]; [reflexivity|].
  simpl. unfold Spec.is_marker in He.
  destruct (FileName e =? p)%string, (Action e =? "hide")%string;
    simpl in *; try discriminate He; exact IH.
Qed.

(** Up to the first hide marker the loop only skips. *)
Lemma delete_loop_at_marker (p : string) (m : B2Entry) (chain : list B2Entry) :
  forall entries,
    Spec.fossil_chain p entries = m :: chain ->
    exists rest,
      chain = List.filter (Spec.same_name p) rest
      /\ B2Storage.delete_loop t p false entries
         = bind (call (client_DeleteFile t p (FileID m)))
             (fun err => match err with
                         | Some e => Ret (Some e)
                         | None => B2Storage.delete_loop t p true rest
                         end).
Proof.
  induction entries as [|e rest IH]; intros Hchain; [discriminate Hchain|].
  simpl in Hchain. simpl.
  unfold Spec.is_marker in Hchain.
  destruct (FileName e =? p)%string, (Action e =? "hide")%string;
    simpl in *; try (now apply IH).
  injection Hchain as -> <-. now exists rest.
Qed.

Lemma delete_loop_returns (p : string) (entries : list B2Entry) :
  forall (b : bool) (w : W),
    exists err,
      result_of (run h (B2Storage.delete_loop t p b entries) w) = Returned err
      /\ (err = None ->
          calls_of (run h (B2Storage.delete_loop t p b entries) w)
          = map (Spec.deletion t p) (Loops.pending p b entries)).
Proof.
  induction entries as [|e rest IH]; intros b w.
  - exists None. split; [reflexivity|]. now destruct b.
  - rewrite pending_step. simpl.
    destruct (negb (FileName e =? p)%string
              || negb b && negb (Action e =? "hide")%string); [apply IH|].
    simpl. destruct (h _ (client_DeleteFile t p (FileID e)) w) as [[err|] w1].
    + exists (Some err). split; [reflexivity | discriminate].
    + destruct (IH true w1) as (err & Hr & Hc). exists err.
      unfold result_of, calls_of in *.
      destruct (run h (B2Storage.delete_loop t p true rest) w1) as [[o w2] log].
      simpl in *. split; [exact Hr|]. intros Hnil. now rewrite (Hc Hnil).
Qed.

Lemma fossil_chain_members (p : string) (entries : list B2Entry) (e : B2Entry) :
  In e (Spec.fossil_chain p entries) -> In e entries /\ FileName e = p.
Proof.
  induction entries as [|x rest IH]; simpl; [tauto|].
  destruct (Spec.is_marker p x) eqn:Hx.
  - intros [<- | Hin].
    + split; [now left|]. unfold Spec.is_marker in Hx.
      apply andb_true_iff in Hx as [Hx _]. now apply String.eqb_eq.
    + apply filter_In in Hin as [Hin Hname].
      split; [now right | now apply String.eqb_eq].
  - intros Hin. destruct (IH Hin). split; [now right | assumption].
Qed.

Lemma fossil_chain_length (p : string) (entries : list B2Entry) :
  length (Spec.fossil_chain p entries) <= length entries.
Proof.
  induction entries as [|x rest IH]; simpl; [lia|].
  destruct (Spec.is_marker p x); simpl; [|lia].
  pose proof (List.filter_length_le (Spec.same_name p) rest). lia.
Qed.

End DeleteMore.

(** X7. Deleting a fossil that is not there succeeds silently: when the
    listing of [p] has no hide marker of the exact name, [DeleteFile] on
    [p.fsl] issues no delete, whatever active versions are listed, and
    returns nil. *)
Theorem DeleteFile_fossil_absent {W : Type} (h : handler W) (t : Z)
    (p : string) (w w1 : W) (entries : list B2Entry) :
  h _ (client_ListFileNames t p true true) w = ((entries, None), w1) ->
  Forall (fun e => Spec.is_marker p e = false) entries ->
  run h (B2Storage.DeleteFile t (p +:+ ".fsl")) w
  = (Returned None, w1, [Called (client_ListFileNames t p true true)]).
Proof.
  intros Hlist Hnone. change ".fsl" with B2Storage.fsl.
  rewrite DeleteFile_fossil_run, Hlist.
  now rewrite (delete_loop_no_marker t p entries Hnone).
Qed.

Lemma DeleteFile_fossil_absent_witness :
  run (stub [mkEntry "v5" "chunks/ab" "upload" 10; mkEntry "v2" "chunks/abc" "hide" 0] 0)
      (B2Storage.DeleteFile 3 "chunks/ab.fsl") tt
  = (Returned None, tt, [Called (client_ListFileNames 3 "chunks/ab" true true)]).
Proof.
  refine (DeleteFile_fossil_absent
            (stub [mkEntry "v5" "chunks/ab" "upload" 10;
                   mkEntry "v2" "chunks/abc" "hide" 0] 0)
            3 "chunks/ab" tt tt
            [mkEntry "v5" "chunks/ab" "upload" 10; mkEntry "v2" "chunks/abc" "hide" 0]
            eq_refl _).
  repeat constructor.
Defined.

(** X8. Deleting a fossil always returns, and a nil result means the work
    was done: when [DeleteFile] on [p.fsl] returns nil after a successful
    listing, it has issued the delete of every version of the fossil
    chain. *)
Theorem DeleteFile_fossil_nil_is_complete {W : Type} (h : handler W) (t : Z)
    (p : string) (w w1 : W) (entries : list B2Entry) :
  h _ (client_ListFileNames t p true true) w = ((entries, None), w1) ->
  exists err,
    result_of (run h (B2Storage.DeleteFile t (p +:+ ".fsl")) w) = Returned err
    /\ (err = None ->
        calls_of (run h (B2Storage.DeleteFile t (p +:+ ".fsl")) w)
        = Called (client_ListFileNames t p true true)
          :: map (Spec.deletion t p) (Spec.fossil_chain p entries)).
Proof.
  intros Hlist. change ".fsl" with B2Storage.fsl.
  rewrite DeleteFile_fossil_run, Hlist.
  destruct (delete_loop_returns h t p entries false w1) as (err & Hr & Hc).
  exists err. unfold result_of, calls_of in *.
  destruct (run h (B2Storage.delete_loop t p false entries) w1) as [[o w2] log].
  simpl in *. split; [exact Hr|]. intros Hnil. now rewrite (Hc Hnil).
Qed.

Lemma DeleteFile_fossil_nil_is_complete_witness :
  calls_of (run (stub sample_versions 0) (B2Storage.DeleteFile 3 "chunks/ab.fsl") tt)
  = [ Called (client_ListFileNames 3 "chunks/ab" true true);
      Called (client_DeleteFile 3 "chunks/ab" "v4");
      Called (client_DeleteFile 3 "chunks/ab" "v3");
      Called (client_DeleteFile 3 "chunks/ab" "v1") ].
Proof.
  destruct (DeleteFile_fossil_nil_is_complete (stub sample_versions 0) 3
              "chunks/ab" tt tt sample_versions eq_refl) as (err & Hr & Hc).
  apply Hc. cbv in Hr. now injection Hr as <-.
Defined.

(** X9. Errors stop the deletion of a fossil at once.  When the listing
    fails, its error is returned and nothing is deleted.  When the delete
    of the hide marker fails, its error is returned and no later version of
    the chain is touched. *)
Theorem DeleteFile_fossil_stops_at_error {W : Type} (h : handler W) (t : Z)
    (p : string) (w w1 : W) (entries : list B2Entry) :
  (forall e,
     h _ (client_ListFileNames t p true true) w = ((entries, Some e), w1) ->
     run h (B2Storage.DeleteFile t (p +:+ ".fsl")) w
     = (Returned (Some e), w1, [Called (client_ListFileNames t p true true)]))
  /\ (forall m chain e w2,
        h _ (client_ListFileNames t p true true) w = ((entries, None), w1) ->
        Spec.fossil_chain p entries = m :: chain ->
        h _ (client_DeleteFile t p (FileID m)) w1 = (Some e, w2) ->
        run h (B2Storage.DeleteFile t (p +:+ ".fsl")) w
        = (Returned (Some e), w2,
           [Called (client_ListFileNames t p true true);
            Called (client_DeleteFile t p (FileID m))])).
Proof.
  change ".fsl" with B2Storage.fsl. split.
  - intros e Hlist. now rewrite DeleteFile_fossil_run, Hlist.
  - intros m chain e w2 Hlist Hchain Hdelete.
    rewrite DeleteFile_fossil_run, Hlist.
    destruct (delete_loop_at_marker t p m chain entries Hchain) as (rest & _ & ->).
    simpl. now rewrite Hdelete.
Qed.

Lemma DeleteFile_fossil_stops_at_error_witness :
  run (failing "busy") (B2Storage.DeleteFile 3 "chunks/ab.fsl") tt
  = (Returned (Some "busy"), tt, [Called (client_ListFileNames 3 "chunks/ab" true true)])
  /\ run (refusing sample_versions "locked") (B2Storage.DeleteFile 3 "chunks/ab.fsl") tt
     = (Returned (Some "locked"), tt,
        [Called (client_ListFileNames 3 "chunks/ab" true true);
         Called (client_DeleteFile 3 "chunks/ab" "v4")]).
Proof.
  split.
  - exact (proj1 (DeleteFile_fossil_stops_at_error (failing "busy") 3 "chunks/ab"
                    tt tt []) "busy" eq_refl).
  - exact (proj2 (DeleteFile_fossil_stops_at_error (refusing sample_versions "locked")
                    3 "chunks/ab" tt tt sample_versions)
             (mkEntry "v4" "chunks/ab" "hide" 0)
             [mkEntry "v3" "chunks/ab" "upload" 10; mkEntry "v1" "chunks/ab" "hide" 0]
             "locked" tt eq_refl eq_refl eq_refl).
Defined.

(** X10. Deleting a fossil never reaches for another name: after a
    successful listing every call issued besides the listing is the delete
    of a listed version whose name is exactly [p], and there are no more
    deletes than listed versions. *)
Theorem DeleteFile_fossil_only_same_name {W : Type} (h : handler W) (t : Z)
    (p : string) (w w1 : W) (entries : list B2Entry) :
  h _ (client_ListFileNames t p true true) w = ((entries, None), w1) ->
  (forall c,
     In c (calls_of (run h (B2Storage.DeleteFile t (p +:+ ".fsl")) w)) ->
     c = Called (client_ListFileNames t p true true)
     \/ exists e, In e entries /\ FileName e = p /\ c = Spec.deletion t p e)
  /\ length (calls_of (run h (B2Storage.DeleteFile t (p +:+ ".fsl")) w))
     <= S (length entries).
Proof.
  intros Hlist. change ".fsl" with B2Storage.fsl.
  rewrite DeleteFile_fossil_run, Hlist.
  destruct (delete_loop_calls h t p entries false w1) as [n Hn].
  unfold calls_of in *.
  destruct (run h (B2Storage.delete_loop t p false entries) w1) as [[o w2] log].
  simpl in *. subst log. split.
  - intros c [<- | Hc]; [now left | right].
    apply in_map_iff in Hc as (e & <- & He).
    assert (Hin : In e (Spec.fossil_chain p entries)).
    { rewrite <- (firstn_skipn n (Spec.fossil_chain p entries)).
      apply in_or_app. now left. }
    destruct (fossil_chain_members p entries e Hin). now exists e.
  - rewrite length_map, length_firstn.
    pose proof (fossil_chain_length p entries). lia.
Qed.

Lemma DeleteFile_fossil_only_same_name_witness :
  length (calls_of (run (stub sample_versions 0)
                        (B2Storage.DeleteFile 3 "chunks/ab.fsl") tt)) <= 6.
Proof.
  exact (proj2 (DeleteFile_fossil_only_same_name (stub sample_versions 0) 3
                  "chunks/ab" tt tt sample_versions eq_refl)).
Defined.

(** ** More on stat *)

(** X11. On a path [p] that does not end in [.fsl], [GetFileInfo] looks
    the exact name up without versions; it reports that the path exists,
    with the size of the first entry listed, exactly when that entry has
    the name [p], whatever its action; otherwise, also when the lookup
    fails, it reports a missing path of size 0. *)
Theorem GetFileInfo_plain {W : Type} (h : handler W) (t : Z) (p : string)
    (w w1 : W) (entries : list B2Entry) (err : option error) :
  Go.HasSuffix p ".fsl" = false ->
  h _ (client_ListFileNames t p true false) w = ((entries, err), w1) ->
  run h (B2Storage.GetFileInfo t p) w
  = (Returned match err, entries with
              | Some e, _ => (false, false, 0%Z, Some e)
              | None, [] => (false, false, 0%Z, None)
              | None, newest :: _ =>
                  if (FileName newest =? p)%string
                  then (true, false, Size newest, None)
                  else (false, false, 0%Z, None)
              end,
     w1, [Called (client_ListFileNames t p true false)]).
Proof.
  intros Hp Hlist.
  rewrite (GetFileInfo_plain_run h t p w Hp), Hlist.
  destruct err as [e|]; [reflexivity|]. now destruct entries.
Qed.

Lemma GetFileInfo_plain_witness :
  run (stub sample_versions 0) (B2Storage.GetFileInfo 3 "chunks/ab") tt
  = (Returned (true, false, 10%Z, None), tt,
     [Called (client_ListFileNames 3 "chunks/ab" true false)]).
Proof.
  exact (GetFileInfo_plain (stub sample_versions 0) 3 "chunks/ab" tt tt
           sample_versions None eq_refl eq_refl).
Defined.

(** X12. Whatever the path and whatever the client answers, [GetFileInfo]
    issues exactly one call, a listing restricted to a single name that
    asks for versions exactly when the path ends in [.fsl]; a path reported
    as missing has size 0, and a path is never reported as existing
    together with an error. *)
Theorem GetFileInfo_invariants {W : Type} (h : handler W) (t : Z)
    (path : string) (w : W) :
  map Spec.listing_flags (calls_of (run h (B2Storage.GetFileInfo t path) w))
  = [Some (true, Go.HasSuffix path ".fsl")]
  /\ exists exist size err,
       result_of (run h (B2Storage.GetFileInfo t path) w)
       = Returned (exist, false, size, err)
       /\ (exist = false -> size = 0%Z)
       /\ (exist = true -> err = None).
Proof.
  change ".fsl" with B2Storage.fsl.
  destruct (Go.HasSuffix path B2Storage.fsl) eqn:Hpath.
  - rewrite (HasSuffix_inv _ _ Hpath), GetFileInfo_fossil_run.
    set (p := substring _ _ _).
    destruct (h _ (client_ListFileNames t p true true) w)
      as [[[|newest rest] [e|]] w1]; (split; [reflexivity|]);
      unfold result_of; simpl;
      try destruct (Spec.is_marker p newest);
      do 3 eexists; (split; [reflexivity|]); split; congruence.
  - rewrite (GetFileInfo_plain_run h t path w Hpath).
    destruct (h _ (client_ListFileNames t path true false) w)
      as [[[|newest rest] [e|]] w1]; (split; [reflexivity|]);
      unfold result_of; simpl;
      try destruct (Spec.same_name path newest);
      do 3 eexists; (split; [reflexivity|]); split; congruence.
Qed.

(** X13. Stat and un-hiding read the fossil the same way: on the same
    answer to the lookup of a non-empty name [n], [MoveFile] from [n.fsl]
    to [n] deletes a version exactly when [GetFileInfo] reports that
    [n.fsl] exists, and the version it deletes is the one whose size the
    stat reports. *)
Theorem unhide_agrees_with_stat {W : Type} (h : handler W) (t : Z)
    (n : string) (w w1 : W) (entries : list B2Entry) :
  n <> "" ->
  h _ (client_ListFileNames t n true true) w = ((entries, None), w1) ->
  let stat := result_of (run h (B2Storage.GetFileInfo t (n +:+ ".fsl")) w) in
  let moved := calls_of (run h (B2Storage.MoveFile t (n +:+ ".fsl") n) w) in
  (exists newest rest,
     entries = newest :: rest
     /\ stat = Returned (true, false, Size newest, None)
     /\ moved = [Called (client_ListFileNames t n true true);
                 Called (client_DeleteFile t n (FileID newest))])
  \/ (stat = Returned (false, false, 0%Z, None)
      /\ moved = [Called (client_ListFileNames t n true true)]).
Proof.
  intros Hne Hlist stat moved. subst stat moved.
  change ".fsl" with B2Storage.fsl.
  rewrite GetFileInfo_fossil_run, (MoveFile_unhide_run h t n w Hne), Hlist.
  destruct entries as [|newest rest]; [now right|].
  unfold Spec.fossil_info. destruct (Spec.is_marker n newest); [|now right].
  left. exists newest, rest. split; [reflexivity|]. split; [reflexivity|].
  now destruct (h _ (client_DeleteFile t n (FileID newest)) w1).
Qed.

Lemma unhide_agrees_with_stat_witness :
  (exists newest rest,
     tl sample_versions = newest :: rest
     /\ result_of (run (stub (tl sample_versions) 0)
                       (B2Storage.GetFileInfo 3 ("chunks/ab" +:+ ".fsl")) tt)
        = Returned (true, false, Size newest, None)
     /\ calls_of (run (stub (tl sample_versions) 0)
                      (B2Storage.MoveFile 3 ("chunks/ab" +:+ ".fsl") "chunks/ab") tt)
        = [Called (client_ListFileNames 3 "chunks/ab" true true);
           Called (client_DeleteFile 3 "chunks/ab" (FileID newest))])
  \/ (result_of (run (stub (tl sample_versions) 0)
                     (B2Storage.GetFileInfo 3 ("chunks/ab" +:+ ".fsl")) tt)
      = Returned (false, false, 0%Z, None)
      /\ calls_of (run (stub (tl sample_versions) 0)
                       (B2Storage.MoveFile 3 ("chunks/ab" +:+ ".fsl") "chunks/ab") tt)
         = [Called (client_ListFileNames 3 "chunks/ab" true true)]).
Proof.
  refine (unhide_agrees_with_stat (stub (tl sample_versions) 0) 3 "chunks/ab"
            tt tt (tl sample_versions) _ eq_refl).
  discriminate.
Defined.

(** X14. Listing and stat read the fossil the same way: the name that the
    listing of [chunks] gives the newest version of a chunk carries the
    suffix [.fsl] exactly when [GetFileInfo] on the stored name with
    [.fsl] appended, answered with the same newest version, reports that
    it exists; and both report the size of that version. *)
Theorem listing_agrees_with_stat {W W' : Type} (h : handler W) (h' : handler W')
    (range_order : list string -> list string) (t t' : Z) (dir : string)
    (w w1 : W) (w' w1' : W') (e : B2Entry) (rest rest' : list B2Entry) :
  B2Storage.normalize dir = "chunks" ->
  h _ (client_ListFileNames t "chunks" false true) w = ((e :: rest, None), w1) ->
  Forall (Spec.long_enough 7) (e :: rest) ->
  h' _ (client_ListFileNames t' (FileName e) true true) w'
  = ((e :: rest', None), w1') ->
  exists (name : string) (files : list string) (sizes : list Z) (exist : bool),
    result_of (run h (B2Storage.ListFiles range_order t dir) w)
    = Returned (name :: files, Size e :: sizes, None)
    /\ result_of (run h' (B2Storage.GetFileInfo t' (FileName e +:+ ".fsl")) w')
       = Returned (exist, false, if exist then Size e else 0%Z, None)
    /\ (exist = true <-> name = Spec.stripped 7 e +:+ ".fsl")
    /\ (exist = false <-> name = Spec.stripped 7 e).
Proof.
  intros Hdir Hlist Hlong Hstat.
  exists (Spec.chunk_name 7 e),
         (map (Spec.chunk_name 7) (Spec.retained (Some (FileName e)) rest)),
         (map Size (Spec.retained (Some (FileName e)) rest)),
         (Action e =? "hide")%string.
  split; [|split].
  - rewrite ListFiles_run, Hdir. simpl. rewrite Hlist.
    now rewrite (chunks_loop_ok 7 (e :: rest) ltac:(lia) Hlong).
  - change ".fsl" with B2Storage.fsl.
    rewrite GetFileInfo_fossil_run, Hstat.
    unfold result_of, Spec.fossil_info, Spec.is_marker. simpl.
    rewrite String.eqb_refl. simpl.
    now destruct (Action e =? "hide")%string.
  - unfold Spec.chunk_name.
    destruct (Action e =? "hide")%string; split; split;
      try reflexivity; try discriminate; intros Heq; exfalso.
    + symmetry in Heq. revert Heq. apply append_neq_self. discriminate.
    + revert Heq. apply append_neq_self. discriminate.
Qed.

Lemma listing_agrees_with_stat_witness :
  exists (name : string) (files : list string) (sizes : list Z) (exist : bool),
    result_of (run (stub (skipn 2 sample_chunks) 0)
                   (B2Storage.ListFiles (fun keys => keys) 3 "chunks") tt)
    = Returned (name :: files, 0%Z :: sizes, None)
    /\ result_of (run (stub (skipn 2 sample_chunks) 0)
                      (B2Storage.GetFileInfo 3 ("chunks/1b" +:+ ".fsl")) tt)
       = Returned (exist, false, if exist then 0%Z else 0%Z, None)
    /\ (exist = true <-> name = "1b" +:+ ".fsl")
    /\ (exist = false <-> name = "1b").
Proof.
  refine (listing_agrees_with_stat
            (stub (skipn 2 sample_chunks) 0) (stub (skipn 2 sample_chunks) 0)
            (fun keys => keys) 3 3 "chunks" tt tt tt tt
            (mkEntry "c2" "chunks/1b" "hide" 0)
            [mkEntry "c1" "chunks/1b" "upload" 10]
            [mkEntry "c1" "chunks/1b" "upload" 10]
            eq_refl eq_refl _ eq_refl).
  repeat constructor; unfold Spec.long_enough; simpl; lia.
Defined.

(** ** More on moving *)

Section MoveMore.

Context {W : Type} (h : handler W).
Variable t : Z.

(** The path [MoveFile] settles on is empty, or [from] for a hide, or [to]
    for an unhide. *)
Lemma move_target_cases (from to : string) :
  B2Storage.move_target from to = ""
  \/ (B2Storage.move_target from to = from /\ from <> "")
  \/ (B2Storage.move_target from to = to /\ to <> ""
      /\ from = to +:+ B2Storage.fsl).
Proof.
  unfold B2Storage.move_target.
  destruct (Go.HasSuffix from B2Storage.fsl).
  - destruct (String.eqb_spec from (to +:+ B2Storage.fsl)) as [E|E]; simpl;
      [|now left].
    destruct (String.eqb_spec to "") as [E0|E0]; [now left|].
    right. right. auto.
  - destruct (Go.HasSuffix to B2Storage.fsl); [|now left].
    destruct (String.eqb_spec to (from +:+ B2Storage.fsl)) as [E|E]; simpl;
      [|now left].
    destruct (String.eqb_spec from "") as [E0|E0]; [now left|].
    right. left. auto.
Qed.

Lemma MoveFile_target_from_run (from to : string) (w : W) :
  B2Storage.move_target from to = from -> from <> "" ->
  run h (B2Storage.MoveFile t from to) w
  = (Returned (snd (fst (h _ (client_HideFile t from) w))),
     snd (h _ (client_HideFile t from) w),
     [Called (client_HideFile t from)]).
Proof.
  intros Htarget Hne. unfold B2Storage.MoveFile. rewrite Htarget.
  apply String.eqb_neq in Hne. rewrite Hne, String.eqb_refl. simpl.
  now destruct (h _ (client_HideFile t from) w) as [[id err] w1].
Qed.

End MoveMore.

(** X15. [MoveFile] never removes content: on every pair of paths it
    issues at most two calls, and a delete among them is the delete of the
    newest listed version of [to], which is a hide marker of that exact
    name, for a pair with [from = to + ".fsl"]. *)
Theorem MoveFile_deletes_only_markers {W : Type} (h : handler W) (t : Z)
    (from to : string) (w : W) :
  length (calls_of (run h (B2Storage.MoveFile t from to) w)) <= 2
  /\ forall c,
       In c (calls_of (run h (B2Storage.MoveFile t from to) w)) ->
       Log.deleted c <> None ->
       from = to +:+ ".fsl"
       /\ exists newest rest w1,
            h _ (client_ListFileNames t to true true) w
            = ((newest :: rest, None), w1)
            /\ Spec.is_marker to newest = true
            /\ Log.deleted c = Some (t, to, FileID newest).
Proof.
  destruct (move_target_cases from to)
    as [Hfatal | [[Hhide Hne] | (Hunhide & Hne & ->)]].
  - rewrite (MoveFile_fatal_run h t from to w Hfatal). simpl.
    split; [lia|]. intros c [<- | []] Hc. now contradiction Hc.
  - rewrite (MoveFile_target_from_run h t from to w Hhide Hne). simpl.
    split; [lia|]. intros c [<- | []] Hc. now contradiction Hc.
  - rewrite (MoveFile_unhide_run h t to w Hne).
    destruct (h _ (client_ListFileNames t to true true) w)
      as [[[|newest rest] [e|]] w1]; simpl;
      try (split; [lia|]; intros c [<- | []] Hc; now contradiction Hc).
    destruct (Spec.is_marker to newest) eqn:Hmarker; simpl;
      try (split; [lia|]; intros c [<- | []] Hc; now contradiction Hc).
    destruct (h _ (client_DeleteFile t to (FileID newest)) w1) as [r w2]. simpl.
    split; [lia|]. intros c [<- | [<- | []]] Hc; [now contradiction Hc|].
    split; [reflexivity|]. now exists newest, rest, w1.
Qed.

Lemma MoveFile_deletes_only_markers_witness :
  "chunks/ab.fsl" = "chunks/ab" +:+ ".fsl"
  /\ exists newest rest w1,
       stub (tl sample_versions) 0 _ (client_ListFileNames 3 "chunks/ab" true true) tt
       = ((newest :: rest, None), w1)
       /\ Spec.is_marker "chunks/ab" newest = true
       /\ Log.deleted (Called (client_DeleteFile 3 "chunks/ab" "v4"))
          = Some (3%Z, "chunks/ab", FileID newest).
Proof.
  refine (proj2 (MoveFile_deletes_only_markers (stub (tl sample_versions) 0) 3
                   "chunks/ab.fsl" "chunks/ab" tt)
            (Called (client_DeleteFile 3 "chunks/ab" "v4")) _ _).
  - simpl. right. now left.
  - discriminate.
Defined.

(** ** More on upload and download *)

(** X16. A download never leaks the stream: when the client fails to open
    it, the error is returned and nothing else is called, also with a
    thread count of zero; when the stream is opened, it is closed exactly
    once, as the last call, also when the division by a thread count of
    zero panics, in which case nothing is copied. *)
Theorem DownloadFile_closes_stream {W : Type} (h : handler W)
    (storage : B2Storage) (t : Z) (filePath : string) (chunk : Chunk) (w w1 : W)
    (readCloser : ReadCloser) (size : Z) (err : option error) :
  h _ (client_DownloadFile t filePath) w = ((readCloser, size, err), w1) ->
  match err with
  | Some e =>
      run h (B2Storage.DownloadFile storage t filePath chunk) w
      = (Returned (Some e), w1, [Called (client_DownloadFile t filePath)])
  | None =>
      exists middle,
        calls_of (run h (B2Storage.DownloadFile storage t filePath chunk) w)
        = Called (client_DownloadFile t filePath)
          :: middle ++ [Called (readCloser_Close readCloser)]
        /\ forallb (fun c => negb (Log.is_close c)) middle = true
        /\ (Threads (client storage) = 0%Z ->
            middle = []
            /\ result_of (run h (B2Storage.DownloadFile storage t filePath chunk) w)
               = Panicked "integer divide by zero")
  end.
Proof.
  intros Hopen. unfold B2Storage.DownloadFile. simpl. rewrite Hopen.
  destruct err as [e|]; [reflexivity|].
  unfold Go.int_quo.
  destruct (Z.eqb_spec (Threads (client storage)) 0) as [Hzero | Hthreads]; simpl.
  - exists []. destruct (h _ (readCloser_Close readCloser) w1). simpl.
    repeat split.
  - set (rate := Go.int_wrap _).
    destruct (h _ (RateLimitedCopy chunk readCloser rate) w1) as [[n err] w2].
    simpl. destruct (h _ (readCloser_Close readCloser) w2). simpl.
    exists [Called (RateLimitedCopy chunk readCloser rate)].
    split; [reflexivity|]. split; [reflexivity|]. contradiction.
Qed.

Lemma DownloadFile_closes_stream_witness :
  exists middle,
    calls_of (run (stub [] 100)
                  (B2Storage.DownloadFile (mkStorage 1000 (mkClient 0)) 3
                     "chunks/ab" (chunk_buffer 1)) tt)
    = Called (client_DownloadFile 3 "chunks/ab")
      :: middle ++ [Called (readCloser_Close (stream 0))]
    /\ forallb (fun c => negb (Log.is_close c)) middle = true
    /\ (Threads (client (mkStorage 1000 (mkClient 0))) = 0%Z ->
        middle = []
        /\ result_of (run (stub [] 100)
                          (B2Storage.DownloadFile (mkStorage 1000 (mkClient 0)) 3
                             "chunks/ab" (chunk_buffer 1)) tt)
           = Panicked "integer divide by zero").
Proof.
  exact (DownloadFile_closes_stream (stub [] 100) (mkStorage 1000 (mkClient 0)) 3
           "chunks/ab" (chunk_buffer 1) tt tt (stream 0) 0%Z None eq_refl).
Defined.

(** X17. With a thread count of zero an upload panics on the division
    after it has read the upload limit: the client's [UploadFile] is never
    called. *)
Theorem UploadFile_zero_threads_panics {W : Type} (h : handler W)
    (storage : B2Storage) (t : Z) (filePath : string)
    (content : list Byte.byte) (w : W) :
  Threads (client storage) = 0%Z ->
  run h (B2Storage.UploadFile storage t filePath content) w
  = (Panicked "integer divide by zero",
     snd (h _ storage_UploadRateLimit w),
     [Called storage_UploadRateLimit]).
Proof.
  intros Hzero. unfold B2Storage.UploadFile, Go.int_quo. simpl.
  rewrite Hzero. simpl. now destruct (h _ storage_UploadRateLimit w).
Qed.

Lemma UploadFile_zero_threads_panics_witness :
  run (stub [] 100)
      (B2Storage.UploadFile (mkStorage 1000 (mkClient 0)) 3 "chunks/ab" []) tt
  = (Panicked "integer divide by zero", tt, [Called storage_UploadRateLimit]).
Proof.
  exact (UploadFile_zero_threads_panics (stub [] 100) (mkStorage 1000 (mkClient 0))
           3 "chunks/ab" [] tt eq_refl).
Defined.

(** ** Creating the storage *)

(** X18. [CreateB2Storage] returns a storage or an error, never both and
    never neither.  It builds the client and authorizes the account on
    thread 0 first; the bucket is looked up only after the authorization
    succeeded, and the nesting levels are set only when both succeeded, in
    which case the storage returned holds the client that was built.  The
    error returned is the one of the step that failed. *)
Theorem CreateB2Storage_result {W : Type} (h : setup_handler W)
    (accountID applicationKey downloadURL bucket storageDir : string)
    (threads : Z) (w : W) :
  let made := NewB2Client accountID applicationKey downloadURL storageDir threads in
  let r := run_setup h (CreateB2Storage accountID applicationKey downloadURL
                          bucket storageDir threads) w in
  let w1 := snd (h _ made w) in
  let authorized := fst (fst (h _ (client_AuthorizeAccount 0) w1)) in
  let w2 := snd (h _ (client_AuthorizeAccount 0) w1) in
  let found := fst (h _ (client_FindBucket bucket) w2) in
  match authorized, found with
  | Some e, _ =>
      fst (fst r) = (None, Some e)
      /\ snd r = [SetupCalled made; SetupCalled (client_AuthorizeAccount 0)]
  | None, Some e =>
      fst (fst r) = (None, Some e)
      /\ snd r = [SetupCalled made; SetupCalled (client_AuthorizeAccount 0);
                  SetupCalled (client_FindBucket bucket)]
  | None, None =>
      fst (fst r) = (Some (mkStorage 0 (fst (h _ made w))), None)
      /\ snd r = [SetupCalled made; SetupCalled (client_AuthorizeAccount 0);
                  SetupCalled (client_FindBucket bucket);
                  SetupCalled (storage_SetDefaultNestingLevels [0%Z] 0)]
  end.
Proof.
  simpl.
  destruct (h _ (NewB2Client accountID applicationKey downloadURL storageDir
                   threads) w) as [made w1]. simpl.
  destruct (h _ (client_AuthorizeAccount 0) w1) as [[[e|] allowed] w2]; simpl;
    [now split|].
  destruct (h _ (client_FindBucket bucket) w2) as [[e|] w3]; simpl; [now split|].
  destruct (h _ (storage_SetDefaultNestingLevels [0%Z] 0) w3). now split.
Qed.
